(** * earthformer.common: download helpers

    A shallow embedding of [src/earthformer/common.py] and the properties
    its specification states about it.

    The module is a thin layer over the Python standard library
    ([str] methods, [os.path], [os.makedirs], [zipfile], [tarfile]) and the
    third-party package [gdown].  Python values are modelled by [pyval],
    text by [string], the file system by a finite map from absolute paths
    to node kinds, and the code itself in a state-and-exception monad whose
    state (the [world]) also carries a log of every observable step. *)

From Stdlib Require Import String Ascii ZArith List Bool Lia.
From stdpp Require Import base option list strings gmap fin_maps.

Local Open Scope string_scope.
Local Open Scope list_scope.

(** ** Python [str] methods *)

Module Str.

(** [s.startswith(p)]. *)
Fixpoint startswith (s p : string) : bool :=
  match p with
  | EmptyString => true
  | String a p' =>
      match s with
      | EmptyString => false
      | String b s' => Ascii.eqb a b && startswith s' p'
      end
  end.

(** [p in s] for two strings: [p] occurs at some position of [s]. *)
Fixpoint contains (p s : string) : bool :=
  startswith s p ||
  match s with
  | EmptyString => false
  | String _ s' => contains p s'
  end.

(** [s.endswith(suf)]: [s] is [suf], or the tail of [s] ends with [suf]. *)
Fixpoint endswith (s suf : string) : bool :=
  String.eqb s suf ||
  match s with
  | EmptyString => false
  | String _ s' => endswith s' suf
  end.

(** [s.replace(old, new)] for a non-empty [old]: scan from the left; at a
    position where [old] starts, emit [new] and skip the rest of the match
    ([k] counts the characters still to skip), otherwise emit the
    character. *)
Fixpoint replace_go (old new : string) (k : nat) (s : string) : string :=
  match s with
  | EmptyString => EmptyString
  | String c s' =>
      match k with
      | S k' => replace_go old new k' s'
      | O =>
          if startswith s old
          then new +:+ replace_go old new (String.length old - 1) s'
          else String c (replace_go old new 0 s')
      end
  end.

(** [s.replace("", new)]: [new] goes before every character and at the end. *)
Fixpoint interleave (new s : string) : string :=
  match s with
  | EmptyString => new
  | String c s' => new +:+ String c (interleave new s')
  end.

Definition replace (s old new : string) : string :=
  match old with
  | EmptyString => interleave new s
  | String _ _ => replace_go old new 0 s
  end.

(** [s.rstrip(c)] for a single character [c]. *)
Fixpoint rstrip (c : ascii) (s : string) : string :=
  match s with
  | EmptyString => EmptyString
  | String a s' =>
      match rstrip c s' with
      | EmptyString => if Ascii.eqb a c then EmptyString else String a EmptyString
      | r => String a r
      end
  end.

(** [s == c * len(s)]. *)
Fixpoint all_char (c : ascii) (s : string) : bool :=
  match s with
  | EmptyString => true
  | String a s' => Ascii.eqb a c && all_char c s'
  end.

(** [s.split(c)] for a single character separator. *)
Fixpoint split (c : ascii) (s : string) : list string :=
  match s with
  | EmptyString => [EmptyString]
  | String a s' =>
      if Ascii.eqb a c then EmptyString :: split c s'
      else match split c s' with
           | [] => [String a EmptyString]
           | w :: ws => String a w :: ws
           end
  end.

(** [sep.join(l)]. *)
Fixpoint join (sep : string) (l : list string) : string :=
  match l with
  | [] => EmptyString
  | [x] => x
  | x :: l' => x +:+ sep +:+ join sep l'
  end.

(** [(s[:i], s[i:])] with [i = s.rfind(c) + 1]: the cut after the last
    [c]; the first component is empty exactly when [c] does not occur. *)
Fixpoint rcut (c : ascii) (s : string) : string * string :=
  match s with
  | EmptyString => (EmptyString, EmptyString)
  | String a s' =>
      match rcut c s' with
      | (EmptyString, t) =>
          if Ascii.eqb a c then (String a EmptyString, t)
          else (EmptyString, String a t)
      | (h, t) => (String a h, t)
      end
  end.

End Str.

(** ** [os.path] on a POSIX system ([posixpath]) *)

Module PosixPath.

Definition slash : ascii := "/"%char.
Definition dot : ascii := "."%char.

Definition nonempty (s : string) : bool :=
  match s with EmptyString => false | String _ _ => true end.

(** [s[:-1]]. *)
Fixpoint init (s : string) : string :=
  match s with
  | EmptyString => EmptyString
  | String _ EmptyString => EmptyString
  | String a s' => String a (init s')
  end.

(** [os.path.split]: cut after the last slash, then strip the trailing
    slashes of the head unless it consists of slashes only. *)
Definition split (p : string) : string * string :=
  let '(head, tail) := Str.rcut slash p in
  let head :=
    if nonempty head && negb (Str.all_char slash head)
    then Str.rstrip slash head else head in
  (head, tail).

Definition basename (p : string) : string := snd (Str.rcut slash p).

Definition dirname (p : string) : string := fst (split p).

(** [os.path.join(a, b)]. *)
Definition join (a b : string) : string :=
  if Str.startswith b "/" then b
  else if negb (nonempty a) || Str.endswith a "/" then a +:+ b
  else a +:+ "/" +:+ b.

(** One step of the component loop of [normpath]; [acc] is [new_comps]
    with its last element first. *)
Definition norm_step (rooted : bool) (acc : list string) (comp : string)
  : list string :=
  if String.eqb comp "" || String.eqb comp "." then acc
  else if negb (String.eqb comp "..") then comp :: acc
  else match acc with
       | [] => if rooted then acc else comp :: acc
       | top :: acc' => if String.eqb top ".." then comp :: acc else acc'
       end.

Definition normpath (path : string) : string :=
  if negb (nonempty path) then "."
  else
    let initial_slashes :=
      if Str.startswith path "/" then
        if Str.startswith path "//" && negb (Str.startswith path "///")
        then "//" else "/"
      else "" in
    let comps := Str.split slash path in
    let new_comps :=
      rev (fold_left (norm_step (nonempty initial_slashes)) comps []) in
    let path := initial_slashes +:+ Str.join "/" new_comps in
    if nonempty path then path else ".".

(** [os.path.abspath] in the working directory [cwd]. *)
Definition abspath (cwd path : string) : string :=
  normpath (if Str.startswith path "/" then path else join cwd path).

(** [os.path.splitext]: the extension starts at the last dot of the last
    component, unless only dots precede it there. *)
Definition splitext (p : string) : string * string :=
  let '(dir, name) := Str.rcut slash p in
  match Str.rcut dot name with
  | (EmptyString, _) => (p, "")
  | (pre, rest) =>
      let stem := init pre in
      if Str.all_char dot stem then (p, "")
      else (dir +:+ stem, String dot rest)
  end.

End PosixPath.

(** ** Python values, exceptions and the world *)

(** The values an argument of the module can hold, as far as the code
    tells them apart: [None], a [str], and three kinds of non-strings
    (a [bool] and a number, which support no membership test, and a
    list, which does).  A path is a [str] throughout, as the docstrings
    have it; [bytes] and [os.PathLike] objects, which [os.path] would
    take as paths too, are not among these values, and no property
    below speaks about them. *)
#[warnings="-register-all"]
Inductive pyval :=
| PNone
| PBool (b : bool)
| PStr (s : string)
| PInt (n : Z)
| PList (l : list pyval).

Definition is_str (v : pyval) : bool :=
  match v with PStr _ => true | _ => false end.

Inductive exn :=
| TypeError
| AttributeError
| FileExistsError
| NotADirectoryError
| LibraryError (name : string).

Inductive result (A : Type) :=
| Ok (a : A)
| Raise (e : exn).
Arguments Ok {A} a.
Arguments Raise {A} e.

(** Nodes of the file system, keyed by absolute normalised path. *)
Inductive node := File | Dir.

(** The positional arguments of [gdown.download], in its order. *)
Record gdown_args := GdownArgs {
  g_url : pyval;
  g_output : pyval;
  g_quiet : bool;
  g_proxy : pyval;
  g_speed : pyval;
  g_use_cookies : bool;
  g_verify : pyval;
  g_id : pyval;
  g_fuzzy : bool;
  g_resume : bool
}.

Inductive archive_kind := Zip | Tar | TarGz.

(** The three places where the code asks [os.path.exists]. *)
Inductive site := OutDirSite | SkipSite | SubfolderSite.

(** What a run leaves in the log, in order.  [EvEnter] marks a call of
    [download_file] with its [url] and [output]; [EvExists], [EvDownload]
    and [EvExtract] keep the file system they ran in. *)
Inductive event :=
| EvEnter (url output : pyval)
| EvPrint (msg : string)
| EvExists (s : site) (path : string) (f : gmap string node)
| EvMakedirs (path : string)
| EvDownload (a : gdown_args) (f : gmap string node)
| EvOpen (k : archive_kind) (archive : string)
| EvExtract (k : archive_kind) (archive dest : string)
    (f : gmap string node).

Record world := World {
  fs : gmap string node;
  cwd : string;
  gdown_installed : bool;
  log : list event
}.

Definition set_fs (f : gmap string node) (w : world) : world :=
  World f (cwd w) (gdown_installed w) (log w).

Definition emit (e : event) (w : world) : world :=
  World (fs w) (cwd w) (gdown_installed w) (log w ++ [e]).

(** The libraries behind the module whose behaviour the code does not
    fix: what [gdown.download] returns and does to the file system, and
    whether opening and extracting an archive succeeds. *)
Class External := {
  gdown_download :
    gdown_args -> gmap string node -> result pyval * gmap string node;
  archive_open :
    archive_kind -> string -> gmap string node -> option exn;
  archive_extractall :
    archive_kind -> string -> string -> gmap string node ->
    option exn * gmap string node
}.

(** ** The monad of the code: state passing with exceptions *)

Definition M (A : Type) : Type := world -> result A * world.

Definition ret {A} (a : A) : M A := fun w => (Ok a, w).
Definition raise {A} (e : exn) : M A := fun w => (Raise e, w).
Definition bind {A B} (m : M A) (k : A -> M B) : M B :=
  fun w =>
    match m w with
    | (Ok a, w') => k a w'
    | (Raise e, w') => (Raise e, w')
    end.

Declare Scope py_scope.
Delimit Scope py_scope with py.
Notation "'let*' x ':=' m 'in' k" := (bind m (fun x => k))
  (at level 10, x name, m at level 100, k at level 200) : py_scope.
Notation "m ';;' k" := (bind m (fun _ => k))
  (at level 100, k at level 200, right associativity) : py_scope.
Local Open Scope py_scope.

Definition tell (e : event) : M unit := fun w => (Ok tt, emit e w).
Definition print (msg : string) : M unit := tell (EvPrint msg).
Definition getcwd : M string := fun w => (Ok (cwd w), w).

(** [for x in l: body(x)]. *)
Fixpoint for_each {A} (l : list A) (body : A -> M unit) : M unit :=
  match l with
  | [] => ret tt
  | x :: l' => body x ;; for_each l' body
  end.

(** ** File-system calls *)

(** [os.fspath]: a [str] is a path, every other value of [pyval]
    ([None], a [bool], a number, a list) is refused with [TypeError],
    as Python does for them. *)
Definition os_fspath (v : pyval) : M string :=
  match v with
  | PStr s => ret s
  | _ => raise TypeError
  end.

Definition os_path_basename (v : pyval) : M string :=
  let* p := os_fspath v in ret (PosixPath.basename p).

Definition os_path_dirname (v : pyval) : M string :=
  let* p := os_fspath v in ret (PosixPath.dirname p).

Definition os_path_join (a b : pyval) : M string :=
  let* a := os_fspath a in
  let* b := os_fspath b in
  ret (PosixPath.join a b).

Definition os_path_abspath (p : string) : M string :=
  fun w => (Ok (PosixPath.abspath (cwd w) p), w).

Definition exists_in (f : gmap string node) (p : string) : bool :=
  bool_decide (is_Some (f !! p)).

(** [os.path.exists(p)], asked at [s]. *)
Definition os_path_exists (s : site) (p : string) : M bool :=
  fun w => (Ok (exists_in (fs w) p), emit (EvExists s p (fs w)) w).

(** The proper ancestors of an absolute path, outermost first:
    ["/a/b/c"] has ["/"], ["/a"] and ["/a/b"]. *)
Fixpoint ancestors_go (pre p : string) : list string :=
  match p with
  | EmptyString => []
  | String c p' =>
      if Ascii.eqb c PosixPath.slash
      then (if PosixPath.nonempty pre then pre else "/")
           :: ancestors_go (pre +:+ "/") p'
      else ancestors_go (pre +:+ String c EmptyString) p'
  end.

Definition ancestors (p : string) : list string := ancestors_go "" p.

(** Create the missing directories of a chain, outermost first; a file
    in the way stops it.  In a file system where the parent of whatever
    exists exists too, nothing has been created by then: all that lies
    above the file is there already. *)
Fixpoint mkdir_chain (l : list string) (f : gmap string node)
  : result (gmap string node) :=
  match l with
  | [] => Ok f
  | a :: l' =>
      match f !! a with
      | Some File => Raise NotADirectoryError
      | Some Dir => mkdir_chain l' f
      | None => mkdir_chain l' (<[a := Dir]> f)
      end
  end.

(** [os.makedirs(p)] with [exist_ok=False]: refuses an existing [p],
    otherwise creates [p] and its missing ancestors.  A regular file
    among the ancestors is the one failure told here; permissions, name
    lengths and the like, by which an operating system may refuse as
    well, are not part of [gmap string node]. *)
Definition makedirs_fs (p : string) (f : gmap string node)
  : result (gmap string node) :=
  if exists_in f p then Raise FileExistsError
  else mkdir_chain (ancestors p ++ [p]) f.

Definition os_makedirs (p : string) : M unit :=
  fun w =>
    let w := emit (EvMakedirs p) w in
    match makedirs_fs p (fs w) with
    | Ok f' => (Ok tt, set_fs f' w)
    | Raise e => (Raise e, w)
    end.

(** The idiom [if not os.path.exists(p): os.makedirs(p)]. *)
Definition ensure_dir (s : site) (p : string) : M unit :=
  let* e := os_path_exists s p in
  if negb e then os_makedirs p else ret tt.

(** ** Python operators on values *)

(** [needle in v] for a string [needle]: substring test on a [str],
    membership on a list, [TypeError] on [None], a [bool] and a
    number. *)
Definition py_in (needle : string) (v : pyval) : M bool :=
  match v with
  | PStr s => ret (Str.contains needle s)
  | PList l =>
      ret (existsb (fun x => match x with
                             | PStr s => String.eqb needle s
                             | _ => false
                             end) l)
  | PNone | PBool _ | PInt _ => raise TypeError
  end.

(** [v.endswith(suf)]: only a [str] has the method. *)
Definition py_endswith (v : pyval) (suf : string) : M bool :=
  match v with
  | PStr s => ret (Str.endswith s suf)
  | _ => raise AttributeError
  end.

(** ** The module *)

Section Common.
Context `{External}.

(** [import gdown] inside [try]: whether the import succeeds. *)
Definition import_gdown : M bool := fun w => (Ok (gdown_installed w), w).

(** [gdown.download(...)]. *)
Definition gdown_call (a : gdown_args) : M pyval :=
  fun w =>
    let w := emit (EvDownload a (fs w)) w in
    let '(r, f') := gdown_download a (fs w) in
    (r, set_fs f' w).

(** [zipfile.ZipFile(path, "r")] and [tarfile.open(path, mode)]. *)
Definition open_archive (k : archive_kind) (path : string) : M unit :=
  fun w =>
    let w := emit (EvOpen k path) w in
    match archive_open k path (fs w) with
    | None => (Ok tt, w)
    | Some e => (Raise e, w)
    end.

(** [ref.extractall(dest)] on the archive opened from [archive]. *)
Definition extractall (k : archive_kind) (archive dest : string) : M unit :=
  fun w =>
    let w := emit (EvExtract k archive dest (fs w)) w in
    match archive_extractall k archive dest (fs w) with
    | (None, f') => (Ok tt, set_fs f' w)
    | (Some e, f') => (Raise e, set_fs f' w)
    end.

(** [github_raw_url(url)]. *)
Definition github_raw_url (url : pyval) : pyval :=
  match url with
  | PStr u =>
      if Str.startswith u "https://github.com/" && Str.contains "blob" u
      then PStr (Str.replace
                   (Str.replace u "github.com" "raw.githubusercontent.com")
                   "blob/" "")
      else url
  | _ => url
  end.

(** The keyword arguments shared by [download_file] and
    [download_files]. *)
Record options := Options {
  quiet : bool;
  proxy : pyval;
  speed : pyval;
  use_cookies : bool;
  verify : pyval;
  id : pyval;
  fuzzy : bool;
  resume : bool;
  unzip : bool;
  overwrite : bool;
  subfolder : bool
}.

Definition default_options : options :=
  Options false PNone PNone true (PBool true) PNone false false true false
    false.

Definition gdown_missing_msg : string :=
  "The gdown package is required for this function. Use `pip install gdown` to install it.".

Definition skip_msg (output : string) : string :=
  output +:+ " already exists. Skip downloading. Set overwrite=True to overwrite.".

(** The body of a [with] block of [download_file]: extraction from the
    open archive [archive], into a subfolder of [out_dir] or next to the
    archive.  Yields the new value of [output]. *)
Definition extract_from (k : archive_kind) (o : options)
    (out_dir archive : string) : M pyval :=
  (if negb (quiet o) then print "Extracting files..." else ret tt) ;;
  if subfolder o then
    let* b := os_path_basename (PStr archive) in
    let basename := fst (PosixPath.splitext b) in
    let* output := os_path_join (PStr out_dir) (PStr basename) in
    ensure_dir SubfolderSite output ;;
    extractall k archive output ;;
    ret (PStr output)
  else
    let* d := os_path_dirname (PStr archive) in
    extractall k archive d ;;
    ret (PStr archive).

(** Lines 92-122: the [if unzip:] block, from the value [gdown.download]
    returned to the value of [output] after it. *)
Definition unzip_block (o : options) (out_dir : string) (output : pyval)
  : M pyval :=
  if unzip o then
    let* z := py_endswith output ".zip" in
    if z then
      let* archive := os_fspath output in
      open_archive Zip archive ;;
      extract_from Zip o out_dir archive
    else
      let* tgz := py_endswith output ".tar.gz" in
      let* t := (if tgz then ret true else py_endswith output ".tar") in
      if t then
        let k := if tgz then TarGz else Tar in
        let* archive := os_fspath output in
        open_archive k archive ;;
        extract_from k o out_dir archive
      else ret output
  else ret output.

(** Lines 92-124, after the value [v] came back from [gdown.download]. *)
Definition after_download (o : options) (out_dir : string) (v : pyval)
  : M pyval :=
  let* output := unzip_block o out_dir v in
  let* a := (let* p := os_fspath output in os_path_abspath p) in
  ret (PStr a).

Definition drive_file_prefix : string := "https://drive.google.com/file/d/".

(** Lines 85-124: from the Google-Drive test to the end. *)
Definition transfer (o : options) (out_dir : string) (url output : pyval)
  : M pyval :=
  let* drive := py_in drive_file_prefix url in
  let fuzzy := if drive then true else fuzzy o in
  let* output :=
    gdown_call (GdownArgs url output (quiet o) (proxy o) (speed o)
                  (use_cookies o) (verify o) (id o) fuzzy (resume o)) in
  after_download o out_dir output.

(** Lines 68-70: a missing [output] defaults to the basename of an
    http [url]. *)
Definition default_output (url output : pyval) : pyval :=
  match output, url with
  | PNone, PStr u =>
      if Str.startswith u "http" then PStr (PosixPath.basename u)
      else output
  | _, _ => output
  end.

(** Lines 76-124: for a string [url], return early when the output is
    there and [overwrite] is off, else rewrite a GitHub [url]; then
    transfer. *)
Definition skip_or_transfer (o : options) (out_dir : string)
    (url output : pyval) : M pyval :=
  match url with
  | PStr _ =>
      let* p := os_fspath output in
      let* a := os_path_abspath p in
      let* e := os_path_exists SkipSite a in
      if e && negb (overwrite o) then
        print (skip_msg p) ;;
        let* a := os_path_abspath p in
        ret (PStr a)
      else transfer o out_dir (github_raw_url url) output
  | _ => transfer o out_dir url output
  end.

(** [download_file(url, output, ...)]. *)
Definition download_file (url output : pyval) (o : options) : M pyval :=
  tell (EvEnter url output) ;;
  let* installed := import_gdown in
  if negb installed then
    print gdown_missing_msg ;;
    ret PNone
  else
    let output := default_output url output in
    let* d := os_path_dirname output in
    let* out_dir := os_path_abspath d in
    ensure_dir OutDirSite out_dir ;;
    skip_or_transfer o out_dir url output.

(** Lines 169-188: the body of the loop of [download_files]. *)
Definition download_item (o : options) (out_dir url output : pyval)
  : M unit :=
  let* filename :=
    match output with
    | PNone =>
        let* b := os_path_basename url in
        os_path_join out_dir (PStr b)
    | _ => os_path_join out_dir output
    end in
  download_file url (PStr filename) o ;;
  ret tt.

(** Lines 165-166: [filenames], or as many [None] as there are urls. *)
Definition filenames_or_none (urls : list pyval)
    (filenames : option (list pyval)) : list pyval :=
  match filenames with
  | None => repeat PNone (length urls)
  | Some l => l
  end.

(** [download_files(urls, out_dir, filenames, ...)]; [filenames] is
    [None] or a list. *)
Definition download_files (urls : list pyval) (out_dir : pyval)
    (filenames : option (list pyval)) (o : options) : M unit :=
  let* out_dir :=
    match out_dir with
    | PNone => let* c := getcwd in ret (PStr c)
    | _ => ret out_dir
    end in
  let filenames := filenames_or_none urls filenames in
  for_each (zip urls filenames) (fun '(url, output) =>
    download_item o out_dir url output).

End Common.

(** * Vocabulary of the properties *)

(** ** Strings *)

Module StrSpec.
Import Str.

(** [s[n:]]. *)
Fixpoint drop (n : nat) (s : string) : string :=
  match n, s with
  | S n', String _ s' => drop n' s'
  | _, _ => s
  end.

(** No non-empty suffix of [t] is a prefix of [d] or has [d] as a
    prefix: an occurrence of [d] never starts inside or at an occurrence
    of [t]. *)
Fixpoint apart_from (t d : string) : bool :=
  match t with
  | EmptyString => true
  | String _ t' =>
      negb (startswith t d) && negb (startswith d t) && apart_from t' d
  end.

(** Occurrences of [old] and of [d] never overlap. *)
Definition apart (old d : string) : bool :=
  apart_from old d && apart_from d old.

End StrSpec.

(** ** Runs and their logs *)

(** The second world continues the first: same working directory and
    installation, and the log grown by [l]. *)
Definition grows (w w' : world) (l : list event) : Prop :=
  log w' = log w ++ l /\ cwd w' = cwd w /\
  gdown_installed w' = gdown_installed w.

(** Every run of [m] only appends events that satisfy [P]. *)
Definition emits {A} (P : event -> Prop) (m : M A) : Prop :=
  forall w, exists l, grows w (snd (m w)) l /\ Forall P l.

Definition is_download (e : event) : bool :=
  match e with EvDownload _ _ => true | _ => false end.

Definition is_enter (e : event) : bool :=
  match e with EvEnter _ _ => true | _ => false end.

(** The events of the [if unzip:] block. *)
Definition extraction_event (e : event) : Prop :=
  match e with
  | EvOpen _ _ | EvPrint _ | EvMakedirs _ | EvExtract _ _ _ _
  | EvExists SubfolderSite _ _ => True
  | _ => False
  end.

(** ** What the properties speak of *)

(** The directory [d] is there, or [os.makedirs(d)] succeeds. *)
Definition can_ensure (f : gmap string node) (d : string) : bool :=
  exists_in f d ||
  match makedirs_fs d f with Ok _ => true | Raise _ => false end.

(** The events a run added to the log. *)
Definition new_events (w w' : world) : list event :=
  drop (length (log w)) (log w').

(** [needle in v] holds: [needle] occurs in the string [v], or is an
    element of the list [v]. *)
Inductive mentions (needle : string) : pyval -> Prop :=
| mentions_str s : Str.contains needle s = true -> mentions needle (PStr s)
| mentions_list l : PStr needle ∈ l -> mentions needle (PList l).

(** The skip check, the transfer and the extraction steps. *)
Definition uses_out_dir (e : event) : bool :=
  match e with
  | EvExists SkipSite _ _ | EvDownload _ _ | EvOpen _ _ | EvExtract _ _ _ _ =>
      true
  | _ => false
  end.

(** The file system in which the skip check or the transfer ran. *)
Definition seen_fs (e : event) : option (gmap string node) :=
  match e with
  | EvExists SkipSite _ f | EvDownload _ f => Some f
  | _ => None
  end.

(** The dispatch on the name of the downloaded file, lines 93-110. *)
Definition archive_kind_of (name : string) : option archive_kind :=
  if Str.endswith name ".zip" then Some Zip
  else if Str.endswith name ".tar.gz" then Some TarGz
  else if Str.endswith name ".tar" then Some Tar
  else None.

(** Where the contents of the archive [name] go. *)
Definition extract_dest (o : options) (out_dir name : string) : string :=
  if subfolder o
  then PosixPath.join out_dir
         (fst (PosixPath.splitext (PosixPath.basename name)))
  else PosixPath.dirname name.

(** The calls of [download_file] in a log: [url] and [output] of each. *)
Definition calls (l : list event) : list (pyval * pyval) :=
  omap (fun e => match e with
                 | EvEnter url output => Some (url, output)
                 | _ => None
                 end) l.

(** The destination of an item as the specification words it: the join
    of the directory and the basename of the url when no filename is
    given, the join of the directory and the filename otherwise; there
    is none when a part is not a string. *)
Definition destination (dir url filename : pyval) : option string :=
  match dir, filename, url with
  | PStr d, PNone, PStr u => Some (PosixPath.join d (PosixPath.basename u))
  | PStr d, PStr f, _ => Some (PosixPath.join d f)
  | _, _, _ => None
  end.

(** Lines 162-163: [out_dir], or the working directory. *)
Definition dir_or_cwd (out_dir : pyval) (w : world) : pyval :=
  match out_dir with
  | PNone => PStr (cwd w)
  | _ => out_dir
  end.

(** Which calls a run of the loop makes. *)
Definition right_call (dir : pyval) (c item : pyval * pyval) : Prop :=
  exists dst, destination dir item.1 item.2 = Some dst /\
              c = (item.1, PStr dst).

(** [replaced old new s t]: scanning [s] from the left, every
    occurrence of [old] met is replaced by [new] and the scan goes on
    behind it, every other character is kept; [t] is the outcome. *)
Inductive replaced (old new : string) : string -> string -> Prop :=
| replaced_end : replaced old new "" ""
| replaced_match s t :
    replaced old new s t -> replaced old new (old +:+ s) (new +:+ t)
| replaced_keep c s t :
    Str.startswith (String c s) old = false ->
    replaced old new s t -> replaced old new (String c s) (String c t).

(** ** Further vocabulary *)

(** [needle in v] as a truth value, [False] where the test raises. *)
Definition occurs_in (needle : string) (v : pyval) : bool :=
  match v with
  | PStr s => Str.contains needle s
  | PList l =>
      existsb (fun x => match x with
                        | PStr s => String.eqb needle s
                        | _ => false
                        end) l
  | _ => false
  end.

(** Opening an archive and extracting from it. *)
Definition is_extraction (e : event) : bool :=
  match e with
  | EvOpen _ _ | EvExtract _ _ _ _ => true
  | _ => false
  end.

(** Neither a transfer nor an extraction step. *)
Definition calm (e : event) : Prop :=
  is_download e = false /\ is_extraction e = false.

(** Lines 76-83: the url handed on to the transfer. *)
Definition sent_url (url : pyval) : pyval :=
  if is_str url then github_raw_url url else url.

(** Lines 85-90: the arguments [gdown.download] is called with. *)
Definition sent_args (o : options) (url output : pyval) : gdown_args :=
  GdownArgs (sent_url url) (default_output url output) (quiet o) (proxy o)
    (speed o) (use_cookies o) (verify o) (id o)
    (occurs_in drive_file_prefix (sent_url url) || fuzzy o) (resume o).

(** What a batch logs on a machine without [gdown]: for every item its
    call and the message. *)
Definition missing_log (dir : pyval) (items : list (pyval * pyval))
  : list event :=
  flat_map (fun item =>
              match destination dir item.1 item.2 with
              | Some dst => [EvEnter item.1 (PStr dst);
                             EvPrint gdown_missing_msg]
              | None => []
              end) items.

(** The item has a destination. *)
Definition placed (dir : pyval) (item : pyval * pyval) : Prop :=
  is_Some (destination dir item.1 item.2).

(** The item has a string url and a destination that is there, in a
    directory that is there. *)
Definition present (dir : pyval) (w : world) (item : pyval * pyval) : Prop :=
  is_str item.1 = true /\
  exists dst,
    destination dir item.1 item.2 = Some dst /\
    exists_in (fs w) (PosixPath.abspath (cwd w) dst) = true /\
    exists_in (fs w) (PosixPath.abspath (cwd w) (PosixPath.dirname dst)) = true.

Definition is_print (e : event) : bool :=
  match e with EvPrint _ => true | _ => false end.

Definition is_makedirs (e : event) : bool :=
  match e with EvMakedirs _ => true | _ => false end.

Section Outcome.
Context `{External}.

(** The outcome of a run from the call of [gdown.download] on. *)
Definition from_download (o : options) (d : string) (a : gdown_args)
    (w2 : world) : result pyval * world :=
  match gdown_download a (fs w2) with
  | (Ok v, f') =>
      after_download o d v (set_fs f' (emit (EvDownload a (fs w2)) w2))
  | (Raise e, f') => (Raise e, set_fs f' (emit (EvDownload a (fs w2)) w2))
  end.

(** The batch as section 4.2 of the specification words it: the items
    in order, each handed to [download_file] with its url and its
    [destination]; the first item that has no destination, or on which
    [download_file] raises, ends the batch with that exception. *)
Fixpoint run_items (dir : pyval) (o : options) (items : list (pyval * pyval))
    (w : world) : result unit * world :=
  match items with
  | [] => (Ok tt, w)
  | (u, fn) :: rest =>
      match destination dir u fn with
      | None => (Raise TypeError, w)
      | Some dst =>
          match download_file u (PStr dst) o w with
          | (Ok _, w') => run_items dir o rest w'
          | (Raise e, w') => (Raise e, w')
          end
      end
  end.

End Outcome.

(** * A concrete machine *)

(** Libraries that do what they are asked: [gdown.download] hands back
    the output path it was given, archives open and extract without a
    trace in the file system. *)
Definition plain_libs : External := {|
  gdown_download a f := (Ok (g_output a), f);
  archive_open _ _ _ := None;
  archive_extractall _ _ _ f := (None, f)
|}.

Definition home_fs : gmap string node :=
  <["/" := Dir]> (<["/home" := Dir]> (<["/home/u" := Dir]>
    (<["/home/u/a.txt" := File]> ∅))).

(** A machine with [gdown], and one without. *)
Definition w_home : world := World home_fs "/home/u" true [].
Definition w_bare : world := World home_fs "/home/u" false [].

Definition subfolder_options : options :=
  Options false PNone PNone true (PBool true) PNone false false true false
    true.

Definition drive_url : pyval :=
  PStr "https://drive.google.com/file/d/1AbC/view?usp=sharing".

Definition drive_args : gdown_args :=
  GdownArgs drive_url (PStr "d.bin") false PNone PNone true (PBool true)
    PNone true false.

Definition zip_args : gdown_args :=
  GdownArgs (PStr "http://x.org/data.zip") (PStr "data.zip") false PNone
    PNone true (PBool true) PNone false false.

Definition batch_urls : list pyval :=
  [PStr "http://x.org/a.bin"; PInt 7; PStr "http://x.org/c.bin"].

Definition batch_names : list pyval := [PNone; PStr "b.bin"].

Definition w_after_first : world :=
  snd (@download_files plain_libs (take 1 batch_urls) PNone
         (Some (take 1 batch_names)) default_options w_home).

Definition w_failed : world :=
  snd (@download_file plain_libs (PInt 7) (PStr "/home/u/b.bin")
         default_options w_after_first).

(** Libraries on a bad day: no connection, a download that yields
    nothing, an archive that does not open. *)
Definition offline_libs : External := {|
  gdown_download a f := (Raise (LibraryError "ConnectionError"), f);
  archive_open _ _ _ := None;
  archive_extractall _ _ _ f := (None, f)
|}.

Definition empty_handed_libs : External := {|
  gdown_download a f := (Ok PNone, f);
  archive_open _ _ _ := None;
  archive_extractall _ _ _ f := (None, f)
|}.

Definition bad_archive_libs : External := {|
  gdown_download a f := (Ok (g_output a), f);
  archive_open _ _ _ := Some (LibraryError "BadZipFile");
  archive_extractall _ _ _ f := (None, f)
|}.

Definition overwrite_options : options :=
  Options false PNone PNone true (PBool true) PNone false false true true
    false.

Definition quiet_options : options :=
  Options true PNone PNone true (PBool true) PNone false false true false
    false.

(** Libraries that leave a trace: extraction puts a [README] into the
    destination. *)
Definition unpacking_libs : External := {|
  gdown_download a f := (Ok (g_output a), f);
  archive_open _ _ _ := None;
  archive_extractall _ _ dest f :=
    (None, <[PosixPath.join dest "README" := File]> f)
|}.

(** The home directory with a regular file named [data] in it. *)
Definition w_data_file : world :=
  World (<["/home/u/data" := File]> home_fs) "/home/u" true [].

(** The home directory once [new] has been made in it. *)
Definition home_with_new : gmap string node :=
  <["/home/u/new" := Dir]> home_fs.

Definition new_args : gdown_args :=
  GdownArgs (PStr "http://x.org/x.bin") (PStr "new/x.bin") false PNone PNone
    true (PBool true) PNone false false.

Definition file_parent_args : gdown_args :=
  GdownArgs (PStr "http://x.org/x.bin") (PStr "a.txt/x") false PNone PNone
    true (PBool true) PNone false false.

Definition abs_zip_args : gdown_args :=
  GdownArgs (PStr "http://x.org/data.zip") (PStr "/home/u/data.zip") false
    PNone PNone true (PBool true) PNone false false.

Definition long_urls : list pyval :=
  [PStr "http://x.org/a.bin"; PStr "http://x.org/c.bin";
   PStr "http://x.org/e.bin"].

Definition short_names : list pyval := [PNone; PStr "k.bin"].

Definition long_names : list pyval := [PNone; PStr "k.bin"; PStr "extra"].

Definition w_after_a : world :=
  snd (@download_file plain_libs (PStr "http://x.org/a.bin")
         (PStr "/home/u/a.bin") default_options w_home).

Definition w_before_seven : world :=
  snd (@download_files plain_libs (take 1 [PStr "http://x.org/a.bin"; PInt 7])
         PNone (Some (take 1 [PNone; PNone])) default_options w_home).

(** * Properties *)

(** ** Strings *)

Module StrFacts.
Import Str StrSpec.

Lemma startswith_nil s : startswith s "" = true.
Proof. by destruct s. Qed.

Lemma startswith_refl s : startswith s s = true.
Proof. induction s as [|c s IH]; simpl; [done|]. by rewrite Ascii.eqb_refl. Qed.

Lemma startswith_app p t : startswith (p +:+ t) p = true.
Proof. induction p as [|c p IH]; simpl; [apply startswith_nil|]. by rewrite Ascii.eqb_refl. Qed.

Lemma startswith_inv s p :
  startswith s p = true -> exists t, s = p +:+ t.
Proof.
  revert s. induction p as [|c p IH]; intros s Hs; simpl in *.
  - by exists s.
  - destruct s as [|b s]; [done|].
    apply andb_true_iff in Hs as [Hc Hs].
    apply Ascii.eqb_eq in Hc as ->.
    destruct (IH _ Hs) as [t ->]. by exists t.
Qed.

Lemma startswith_comparable s a b :
  startswith s a = true -> startswith s b = true ->
  startswith a b || startswith b a = true.
Proof.
  revert a b. induction s as [|c s IH]; intros [|x a] [|y b]; simpl; try done.
  intros Ha Hb.
  apply andb_true_iff in Ha as [Hx Ha]. apply andb_true_iff in Hb as [Hy Hb].
  apply Ascii.eqb_eq in Hx as ->. apply Ascii.eqb_eq in Hy as ->.
  rewrite Ascii.eqb_refl. simpl. by apply IH.
Qed.

Lemma contains_cons p c s :
  contains p s = true -> contains p (String c s) = true.
Proof. intros Hs. simpl. rewrite Hs. apply orb_true_r. Qed.

Lemma contains_app_r p a s :
  contains p s = true -> contains p (a +:+ s) = true.
Proof. induction a as [|c a IH]; intros Hs; [done|]. by apply contains_cons, IH. Qed.

Lemma startswith_contains s p : startswith s p = true -> contains p s = true.
Proof. intros Hs. destruct s; simpl in *; by rewrite Hs. Qed.

Lemma contains_inv p s :
  contains p s = true -> exists a b, s = a +:+ p +:+ b.
Proof.
  induction s as [|c s IH]; intros Hs.
  - destruct p; [|done]. by exists "", "".
  - change (contains p (String c s)) with
      (startswith (String c s) p || contains p s) in Hs.
    apply orb_true_iff in Hs as [Hs|Hs].
    + destruct (startswith_inv _ _ Hs) as [t Ht]. by exists "", t.
    + destruct (IH Hs) as (a & b & ->). by exists (String c a), b.
Qed.

Lemma contains_intro p a b : contains p (a +:+ p +:+ b) = true.
Proof. apply contains_app_r, startswith_contains, startswith_app. Qed.

(** Past a match of [t], an occurrence of [d] lies in what follows. *)
Lemma skip_match t d s :
  apart_from t d = true ->
  startswith s t = true -> contains d s = true ->
  contains d (drop (String.length t) s) = true.
Proof.
  revert s. induction t as [|c t IH]; intros s Hap Ht Hd; [done|].
  destruct s as [|b s]; [done|].
  cbn [apart_from] in Hap. apply andb_true_iff in Hap as [Hap Hap'].
  apply andb_true_iff in Hap as [H1 H2].
  apply negb_true_iff in H1, H2.
  pose proof Ht as Ht'. simpl in Ht'. apply andb_true_iff in Ht' as [_ Ht'].
  change (contains d (String b s)) with
    (startswith (String b s) d || contains d s) in Hd.
  apply orb_true_iff in Hd as [Hd|Hd].
  - pose proof (startswith_comparable _ _ _ Ht Hd) as Hc.
    rewrite H1, H2 in Hc. done.
  - simpl. by apply IH.
Qed.

(** [replace_go] copies a match of [d] unchanged. *)
Lemma keep_match old new d s :
  apart_from d old = true ->
  startswith s d = true ->
  startswith (replace_go old new 0 s) d = true.
Proof.
  revert s. induction d as [|c d IH]; intros s Hap Hd; [apply startswith_nil|].
  destruct s as [|b s]; [done|].
  cbn [apart_from] in Hap. apply andb_true_iff in Hap as [Hap Hap'].
  apply andb_true_iff in Hap as [H1 H2].
  apply negb_true_iff in H1, H2.
  assert (startswith (String b s) old = false) as Hno.
  { destruct (startswith (String b s) old) eqn:Ho; [|done].
    pose proof (startswith_comparable _ _ _ Hd Ho) as Hc.
    rewrite H1, H2 in Hc. done. }
  cbn [replace_go]. rewrite Hno.
  simpl in Hd. apply andb_true_iff in Hd as [Hc Hd].
  simpl. rewrite Hc. simpl. by apply IH.
Qed.

Lemma replace_go_keeps old new d :
  apart old d = true ->
  forall s k,
    contains d (drop k s) = true ->
    contains d (replace_go old new k s) = true.
Proof.
  intros Hap. apply andb_true_iff in Hap as [Hod Hdo].
  induction s as [|c s IH]; intros k Hd.
  - by destruct k.
  - destruct k as [|k]; [|by apply IH].
    cbn [drop] in Hd. cbn [replace_go].
    destruct (startswith (String c s) old) eqn:Hold.
    + apply contains_app_r, IH.
      pose proof (skip_match _ _ _ Hod Hold Hd) as Hk.
      destruct old as [|b old].
      { destruct d; [|done]. apply startswith_contains, startswith_nil. }
      simpl in Hk. simpl. by rewrite Nat.sub_0_r.
    + change (contains d (String c s)) with
        (startswith (String c s) d || contains d s) in Hd.
      apply orb_true_iff in Hd as [Hd|Hd].
      * apply startswith_contains.
        pose proof (keep_match old new d _ Hdo Hd) as Hk.
        cbn [replace_go] in Hk. by rewrite Hold in Hk.
      * apply contains_cons, (IH 0). by destruct s.
Qed.

(** [s.replace(old, new)] keeps every string that occurs in [s] and
    cannot overlap [old]. *)
Lemma replace_keeps s old new d :
  apart old d = true -> old <> "" ->
  contains d s = true -> contains d (replace s old new) = true.
Proof.
  intros Hap Hne Hd. destruct old as [|b old]; [done|].
  apply replace_go_keeps; [done|]. by destruct s.
Qed.

End StrFacts.

(** ** The file system *)

Lemma exists_in_true f p : exists_in f p = true <-> is_Some (f !! p).
Proof. unfold exists_in. by rewrite bool_decide_eq_true. Qed.

Lemma exists_in_false f p : exists_in f p = false <-> f !! p = None.
Proof.
  unfold exists_in. rewrite bool_decide_eq_false. symmetry.
  apply eq_None_not_Some.
Qed.

(** A chain of [mkdir]s keeps what is there and leaves every member of
    the chain a directory. *)
Lemma mkdir_chain_ok l : forall (f f' : gmap string node),
  mkdir_chain l f = Ok f' ->
  (forall k v, f !! k = Some v -> f' !! k = Some v) /\
  (forall a, a ∈ l -> f' !! a = Some Dir).
Proof.
  induction l as [|a l IH]; intros f f' Hm; simpl in Hm.
  - injection Hm as <-. split; [done|]. intros a Ha. by apply elem_of_nil in Ha.
  - destruct (f !! a) as [[|]|] eqn:Hfa; [done| |].
    + destruct (IH _ _ Hm) as [Hkeep Hdir]. split; [done|].
      intros b [->|Hb]%elem_of_cons; [by apply Hkeep | by apply Hdir].
    + destruct (IH _ _ Hm) as [Hkeep Hdir]. split.
      * intros k v Hk. apply Hkeep. rewrite lookup_insert_ne; [done|].
        intros ->. congruence.
      * intros b [->|Hb]%elem_of_cons; [|by apply Hdir].
        apply Hkeep, lookup_insert_eq.
Qed.

Lemma makedirs_fs_ok p (f f' : gmap string node) :
  makedirs_fs p f = Ok f' ->
  f' !! p = Some Dir /\ (forall k v, f !! k = Some v -> f' !! k = Some v).
Proof.
  unfold makedirs_fs. destruct (exists_in f p); [done|]. intros Hm.
  destruct (mkdir_chain_ok _ _ _ Hm) as [Hkeep Hdir]. split; [|done].
  apply Hdir, elem_of_app. right. apply list_elem_of_singleton. done.
Qed.

(** ** Runs *)

Lemma grows_refl w : grows w w [].
Proof. unfold grows. by rewrite app_nil_r. Qed.

Lemma grows_trans w1 w2 w3 l1 l2 :
  grows w1 w2 l1 -> grows w2 w3 l2 -> grows w1 w3 (l1 ++ l2).
Proof.
  intros (H1 & H2 & H3) (H4 & H5 & H6). unfold grows.
  rewrite H4, H1, H5, H2, H6, H3, app_assoc. done.
Qed.

Lemma grows_emit e w : grows w (emit e w) [e].
Proof. done. Qed.

Lemma grows_set_fs f w : grows w (set_fs f w) [].
Proof. unfold grows. simpl. by rewrite app_nil_r. Qed.

Lemma grows_inj w w' l1 l2 : grows w w' l1 -> grows w w' l2 -> l1 = l2.
Proof.
  intros (H1 & _) (H2 & _). rewrite H1 in H2. by apply app_inv_head in H2.
Qed.

Lemma emits_ret {A} P (a : A) : emits P (ret a).
Proof. intros w. exists []. split; [apply grows_refl | constructor]. Qed.

Lemma emits_raise {A} P e : emits P (@raise A e).
Proof. intros w. exists []. split; [apply grows_refl | constructor]. Qed.

Lemma emits_bind {A B} P (m : M A) (k : A -> M B) :
  emits P m -> (forall a, emits P (k a)) -> emits P (bind m k).
Proof.
  intros Hm Hk w. unfold bind. destruct (Hm w) as (l1 & Hg1 & Hl1).
  destruct (m w) as [[a|e] w1]; simpl in *.
  - destruct (Hk a w1) as (l2 & Hg2 & Hl2). exists (l1 ++ l2). split.
    + by eapply grows_trans.
    + by apply Forall_app.
  - by exists l1.
Qed.

(** A first step that only returns [a] can be skipped. *)
Lemma emits_bind_pure {A B} P (m : M A) (k : A -> M B) a :
  (forall w, m w = (Ok a, w)) -> emits P (k a) -> emits P (bind m k).
Proof. intros Hm Hk w. unfold bind. rewrite Hm. apply Hk. Qed.

Lemma emits_tell P e : P e -> emits P (tell e).
Proof. intros He w. exists [e]. split; [apply grows_emit | by repeat constructor]. Qed.

Lemma emits_weaken {A} (P Q : event -> Prop) (m : M A) :
  (forall e, P e -> Q e) -> emits P m -> emits Q m.
Proof.
  intros HPQ Hm w. destruct (Hm w) as (l & Hg & Hl). exists l. split; [done|].
  eapply Forall_impl; eauto.
Qed.

Lemma emits_os_fspath P v : emits P (os_fspath v).
Proof. destruct v; first [apply emits_ret | apply emits_raise]. Qed.

Lemma emits_os_path_abspath P p : emits P (os_path_abspath p).
Proof. intros w. exists []. split; [apply grows_refl | constructor]. Qed.

Lemma emits_getcwd P : emits P getcwd.
Proof. intros w. exists []. split; [apply grows_refl | constructor]. Qed.

Lemma emits_os_path_exists (P : event -> Prop) s p :
  (forall f, P (EvExists s p f)) -> emits P (os_path_exists s p).
Proof.
  intros HP w. exists [EvExists s p (fs w)]. split; [apply grows_emit|].
  by repeat constructor.
Qed.

Lemma emits_os_makedirs (P : event -> Prop) p :
  P (EvMakedirs p) -> emits P (os_makedirs p).
Proof.
  intros HP w. exists [EvMakedirs p]. split; [|by repeat constructor].
  unfold os_makedirs. destruct (makedirs_fs _ _); simpl; [|done].
  rewrite <- (app_nil_r [_]). eapply grows_trans; [apply grows_emit|].
  apply grows_set_fs.
Qed.

Lemma py_in_pure needle v w : snd (py_in needle v w) = w.
Proof. by destruct v. Qed.

Lemma emits_py_in P needle v : emits P (py_in needle v).
Proof. destruct v; first [apply emits_ret | apply emits_raise]. Qed.

Lemma emits_py_endswith P v suf : emits P (py_endswith v suf).
Proof. destruct v; first [apply emits_ret | apply emits_raise]. Qed.

Section Runs.
Context `{External}.

Lemma emits_gdown_call (P : event -> Prop) a :
  (forall f, P (EvDownload a f)) -> emits P (gdown_call a).
Proof.
  intros HP w. exists [EvDownload a (fs w)]. split; [|by repeat constructor].
  unfold gdown_call. destruct (gdown_download _ _) as [r f']. simpl.
  rewrite <- (app_nil_r [_]). eapply grows_trans; [apply grows_emit|].
  apply grows_set_fs.
Qed.

Lemma emits_open_archive (P : event -> Prop) k p :
  P (EvOpen k p) -> emits P (open_archive k p).
Proof.
  intros HP w. exists [EvOpen k p]. split; [|by repeat constructor].
  unfold open_archive. by destruct (archive_open _ _ _).
Qed.

Lemma emits_extractall (P : event -> Prop) k a d :
  (forall f, P (EvExtract k a d f)) -> emits P (extractall k a d).
Proof.
  intros HP w. exists [EvExtract k a d (fs w)]. split; [|by repeat constructor].
  unfold extractall. destruct (archive_extractall _ _ _ _) as [[e|] f']; simpl;
    (rewrite <- (app_nil_r [_]); eapply grows_trans; [apply grows_emit|];
     apply grows_set_fs).
Qed.

Lemma emits_ensure_dir (P : event -> Prop) s p :
  (forall f, P (EvExists s p f)) -> P (EvMakedirs p) ->
  emits P (ensure_dir s p).
Proof.
  intros H1 H2. apply emits_bind; [by apply emits_os_path_exists|].
  intros [|]; [apply emits_ret | by apply emits_os_makedirs].
Qed.

Ltac emits_go :=
  repeat first
    [ apply emits_ret | apply emits_raise
    | apply emits_os_fspath | apply emits_os_path_abspath
    | apply emits_py_endswith | apply emits_py_in
    | apply emits_tell; done
    | apply emits_open_archive; done
    | apply emits_extractall; done
    | apply emits_ensure_dir; done
    | apply emits_bind; [|intros ?]
    | match goal with
      | |- emits _ (if ?b then _ else _) => destruct b
      | |- emits _ (match ?v with _ => _ end) => destruct v
      end ].

Lemma emits_extract_from k o d a :
  emits extraction_event (extract_from k o d a).
Proof.
  unfold extract_from, print, os_path_basename, os_path_join, os_path_dirname.
  emits_go.
Qed.

Lemma emits_unzip_block o d v : emits extraction_event (unzip_block o d v).
Proof.
  unfold unzip_block.
  emits_go; apply emits_extract_from.
Qed.

Lemma emits_after_download o d v : emits extraction_event (after_download o d v).
Proof.
  unfold after_download.
  apply emits_bind; [apply emits_unzip_block|]. intros v'.
  apply emits_bind; [|intros; apply emits_ret].
  apply emits_bind; [apply emits_os_fspath|].
  intros. apply emits_os_path_abspath.
Qed.

(** [transfer], by the outcome of the membership test. *)
Lemma transfer_run o d u out w :
  transfer o d u out w =
    match py_in drive_file_prefix u w with
    | (Ok drive, _) =>
        let a := GdownArgs u out (quiet o) (proxy o) (speed o) (use_cookies o)
                   (verify o) (id o) (if drive then true else fuzzy o)
                   (resume o) in
        let w1 f' := set_fs f' (emit (EvDownload a (fs w)) w) in
        match gdown_download a (fs w) with
        | (Ok v, f') => after_download o d v (w1 f')
        | (Raise e, f') => (Raise e, w1 f')
        end
    | (Raise e, _) => (Raise e, w)
    end.
Proof.
  unfold transfer. unfold bind at 1.
  pose proof (py_in_pure drive_file_prefix u w) as Hpure.
  destruct (py_in drive_file_prefix u w) as [[drive|e] w0]; simpl in Hpure;
    subst w0; [|done].
  unfold bind, gdown_call. cbn [fs emit].
  by destruct (gdown_download _ (fs w)) as [[v|e] f'].
Qed.

(** [transfer] calls [gdown.download] at most once, and only the
    extraction follows. *)
Lemma emits_transfer (P : event -> Prop) o d url output :
  (forall e, extraction_event e -> P e) ->
  (forall a f, g_url a = url -> g_output a = output -> g_quiet a = quiet o ->
     (g_fuzzy a = true \/ g_fuzzy a = fuzzy o) -> P (EvDownload a f)) ->
  emits P (transfer o d url output).
Proof.
  intros Hx Hd. unfold transfer.
  apply emits_bind; [apply emits_py_in|]. intros drive.
  apply emits_bind.
  { apply emits_gdown_call. intros f. apply Hd; try done.
    destruct drive; simpl; auto. }
  intros r. eapply emits_weaken; [apply Hx | apply emits_after_download].
Qed.

(** [transfer] calls [gdown.download] in the file system it starts in;
    only extraction events follow. *)
Lemma transfer_events o d url out w :
  exists l, grows w (snd (transfer o d url out w)) l /\
    Forall (fun e => extraction_event e \/ exists a, e = EvDownload a (fs w)) l.
Proof.
  rewrite transfer_run.
  destruct (py_in drive_file_prefix url w) as [[drive|e] w0].
  2:{ exists []. split; [apply grows_refl | constructor]. }
  cbv zeta. set (a := GdownArgs _ _ _ _ _ _ _ _ _ _).
  destruct (gdown_download a (fs w)) as [r f'].
  set (w1 := set_fs f' (emit _ w)).
  assert (grows w w1 [EvDownload a (fs w)]) as Hg1 by done.
  destruct r as [v|e].
  2:{ eexists. split; [exact Hg1|].
      constructor; [right; by eexists | constructor]. }
  destruct (emits_after_download o d v w1) as (l2 & Hg2 & Hl2).
  eexists. split; [eapply grows_trans; [exact Hg1 | exact Hg2]|].
  constructor; [right; by eexists|].
  eapply Forall_impl; [exact Hl2|]. by left.
Qed.

(** What [ensure_dir] leaves behind, by outcome. *)
Lemma ensure_dir_inv s d w r w' :
  ensure_dir s d w = (r, w') ->
  grows w w' (EvExists s d (fs w) ::
              if exists_in (fs w) d then [] else [EvMakedirs d]) /\
  match r with
  | Ok _ =>
      exists_in (fs w') d = true /\
      (forall k v, fs w !! k = Some v -> fs w' !! k = Some v)
  | Raise e =>
      exists_in (fs w) d = false /\ makedirs_fs d (fs w) = Raise e /\
      fs w' = fs w
  end.
Proof.
  unfold ensure_dir, bind, os_path_exists, os_makedirs, ret. simpl.
  destruct (exists_in (fs w) d) eqn:Hex; simpl.
  - intros [= <- <-]. by repeat split.
  - destruct (makedirs_fs d (fs w)) as [f'|e] eqn:Hmk; intros [= <- <-]; simpl.
    + destruct (makedirs_fs_ok _ _ _ Hmk) as [Hd Hkeep].
      repeat split; simpl; [by rewrite <- app_assoc| |done].
      apply exists_in_true. by rewrite Hd.
    + repeat split; simpl. by rewrite <- app_assoc.
Qed.

Lemma ensure_dir_ok s d w :
  can_ensure (fs w) d = true ->
  exists w', ensure_dir s d w = (Ok tt, w').
Proof.
  unfold can_ensure, ensure_dir, bind, os_path_exists, os_makedirs, ret. simpl.
  destruct (exists_in (fs w) d) eqn:Hex; simpl; [by eexists|].
  destruct (makedirs_fs d (fs w)); [by eexists|done].
Qed.

(** [download_file], by how far it gets. *)
Lemma download_file_no_gdown url output o w :
  gdown_installed w = false ->
  download_file url output o w =
    (Ok PNone, emit (EvPrint gdown_missing_msg) (emit (EvEnter url output) w)).
Proof.
  intros Hg. unfold download_file, bind, tell, import_gdown, print, tell, ret.
  simpl. by rewrite Hg.
Qed.

Lemma download_file_no_path url output o w :
  gdown_installed w = true ->
  is_str (default_output url output) = false ->
  download_file url output o w = (Raise TypeError, emit (EvEnter url output) w).
Proof.
  intros Hg Hp. unfold download_file, bind, tell, import_gdown, ret.
  simpl. rewrite Hg. simpl. by destruct (default_output url output).
Qed.

Lemma download_file_path url output o w p :
  gdown_installed w = true ->
  default_output url output = PStr p ->
  download_file url output o w =
    let d := PosixPath.abspath (cwd w) (PosixPath.dirname p) in
    match ensure_dir OutDirSite d (emit (EvEnter url output) w) with
    | (Ok _, w1) => skip_or_transfer o d url (PStr p) w1
    | (Raise e, w1) => (Raise e, w1)
    end.
Proof.
  intros Hg Hp. unfold download_file, bind, tell, import_gdown, ret,
    os_path_dirname, os_path_abspath, bind, ret.
  simpl. rewrite Hg, Hp. simpl.
  by destruct (ensure_dir _ _ _) as [[[]|] ?].
Qed.

(** ** Missing dependency *)

(** C5: without [gdown], [download_file] prints the message and returns
    [None]; the file system is as before, and nothing but the entry mark
    and the message is logged: no directory is made, nothing is
    transferred. *)
Theorem download_file_without_gdown url output o w :
  gdown_installed w = false ->
  let (r, w') := download_file url output o w in
  r = Ok PNone /\ fs w' = fs w /\
  log w' = log w ++ [EvEnter url output; EvPrint gdown_missing_msg].
Proof.
  intros Hg. rewrite download_file_no_gdown by done.
  repeat split. simpl. by rewrite <- app_assoc.
Qed.

(** ** Skipping an existing file *)

(** C1, as the code has it: with [gdown] importable and the directory
    of the output there or creatable, a string [url] whose output path
    is an existing file, without [overwrite], makes [download_file]
    return the absolute output path; [gdown.download] is not called. *)
Theorem download_file_skips_existing u output o w p :
  gdown_installed w = true ->
  default_output (PStr u) output = PStr p ->
  fs w !! PosixPath.abspath (cwd w) p = Some File ->
  can_ensure (fs w) (PosixPath.abspath (cwd w) (PosixPath.dirname p)) = true ->
  overwrite o = false ->
  exists w' l,
    download_file (PStr u) output o w =
      (Ok (PStr (PosixPath.abspath (cwd w) p)), w') /\
    grows w w' l /\ Forall (fun e => is_download e = false) l.
Proof.
  intros Hg Hp Hfile Hdir Hov.
  set (d := PosixPath.abspath (cwd w) (PosixPath.dirname p)) in *.
  destruct (ensure_dir_ok OutDirSite d (emit (EvEnter (PStr u) output) w) Hdir)
    as [w1 Hw1].
  destruct (ensure_dir_inv _ _ _ _ _ Hw1) as [Hgr [Hex Hkeep]].
  assert (exists_in (fs w1) (PosixPath.abspath (cwd w) p) = true) as Hthere.
  { apply exists_in_true. rewrite (Hkeep _ _ Hfile). by eexists. }
  destruct Hgr as (Hlog & Hcwd & Hgd). simpl in Hlog, Hcwd, Hgd.
  eexists _, _. split.
  - rewrite (download_file_path _ _ _ _ p) by done. cbv zeta. fold d.
    rewrite Hw1.
    unfold skip_or_transfer, bind, os_path_abspath, os_path_exists, print,
      tell, ret; simpl.
    rewrite Hcwd, Hthere, Hov. simpl. rewrite Hcwd. reflexivity.
  - split.
    + repeat split; simpl; [|done..].
      rewrite Hlog. rewrite <- !app_assoc. simpl. reflexivity.
    + destruct (exists_in (fs w) d); by repeat constructor.
Qed.

(** ** Events of a whole call *)

Lemma grows_new_events w w' l : grows w w' l -> new_events w w' = l.
Proof. intros (Hl & _). unfold new_events. by rewrite Hl, drop_app_length. Qed.

Lemma emits_download_file (P : event -> Prop) url output o :
  (forall e, is_enter e = false -> is_download e = false -> P e) ->
  P (EvEnter url output) ->
  (forall d out,
     emits P (transfer o d (if is_str url then github_raw_url url else url)
                out)) ->
  emits P (download_file url output o).
Proof.
  intros Hother Henter Htransfer. unfold download_file.
  apply emits_bind; [by apply emits_tell|]. intros _.
  apply emits_bind; [intros w; exists []; split; [apply grows_refl|constructor]|].
  intros [|]; simpl.
  2:{ apply emits_bind; [apply emits_tell; by apply Hother | intros; apply emits_ret]. }
  unfold os_path_dirname.
  apply emits_bind; [apply emits_bind; [apply emits_os_fspath|intros; apply emits_ret]|].
  intros d. apply emits_bind; [apply emits_os_path_abspath|]. intros out_dir.
  apply emits_bind.
  { apply emits_ensure_dir; [intros f|]; by apply Hother. }
  intros _. unfold skip_or_transfer.
  destruct url as [|b|u|n|l]; try apply (Htransfer out_dir).
  apply emits_bind; [apply emits_os_fspath|]. intros p.
  apply emits_bind; [apply emits_os_path_abspath|]. intros a.
  apply emits_bind; [apply emits_os_path_exists; intros f; by apply Hother|].
  intros e. destruct (e && negb (overwrite o)); [|apply (Htransfer out_dir)].
  apply emits_bind; [apply emits_tell; by apply Hother|]. intros _.
  apply emits_bind; [apply emits_os_path_abspath|]. intros. apply emits_ret.
Qed.

(** ** Google-Drive URLs *)

Lemma py_in_mentions needle v w :
  mentions needle v -> py_in needle v w = (Ok true, w).
Proof.
  intros [s Hs|l Hl]; unfold py_in, ret; [by rewrite Hs|].
  f_equal. f_equal. apply existsb_exists. exists (PStr needle).
  split; [by apply list_elem_of_In | apply String.eqb_refl].
Qed.

(** The rewriting of GitHub URLs leaves a Google-Drive file prefix in
    place: neither ["github.com"] nor ["blob/"] can overlap it. *)
Lemma github_raw_url_mentions_drive url :
  mentions drive_file_prefix url ->
  mentions drive_file_prefix (github_raw_url url).
Proof.
  intros [s Hs|l Hl]; [|by constructor]. unfold github_raw_url.
  destruct (_ && _); [|by constructor]. constructor.
  apply StrFacts.replace_keeps; [reflexivity|done|].
  apply StrFacts.replace_keeps; [reflexivity|done|done].
Qed.

(** C6: when the Google-Drive file prefix occurs in [url], every call
    of [gdown.download] that a run of [download_file] makes carries
    [fuzzy=True], whatever [fuzzy] the caller gave. *)
Theorem drive_url_forces_fuzzy url output o w a f :
  mentions drive_file_prefix url ->
  EvDownload a f ∈ new_events w (snd (download_file url output o w)) ->
  g_fuzzy a = true.
Proof.
  intros Hurl Hin.
  assert (emits (fun e => forall a f, e = EvDownload a f -> g_fuzzy a = true)
            (download_file url output o)) as Hem.
  { apply emits_download_file.
    - intros e _ He a' f' ->. done.
    - intros a' f' [=].
    - intros d out. unfold transfer.
      assert (mentions drive_file_prefix
                (if is_str url then github_raw_url url else url)) as Hm.
      { destruct (is_str url); [by apply github_raw_url_mentions_drive|done]. }
      apply emits_bind_pure with (a := true);
        [intros w0; by apply py_in_mentions|].
      apply emits_bind; [apply emits_gdown_call; by intros f0 a' f' [= <- _]|].
      intros r. eapply emits_weaken; [|apply emits_after_download].
      by intros [] He a' f'. }
  destruct (Hem w) as (l & Hg & Hl).
  rewrite (grows_new_events _ _ _ Hg) in Hin.
  rewrite Forall_forall in Hl. by eapply Hl.
Qed.

(** And the call is made: with [gdown] importable, an output path
    whose directory is there or creatable, and [overwrite] on (so that
    nothing is skipped), the run does call [gdown.download], with
    [fuzzy=True]. *)
Lemma drive_url_is_transferred url output o w p :
  mentions drive_file_prefix url ->
  gdown_installed w = true ->
  default_output url output = PStr p ->
  can_ensure (fs w) (PosixPath.abspath (cwd w) (PosixPath.dirname p)) = true ->
  overwrite o = true ->
  exists a f,
    EvDownload a f ∈ new_events w (snd (download_file url output o w)) /\
    g_fuzzy a = true.
Proof.
  intros Hurl Hg Hp Hdir Hov.
  rewrite (download_file_path _ _ _ _ p) by done. cbv zeta.
  set (d := PosixPath.abspath (cwd w) (PosixPath.dirname p)) in *.
  destruct (ensure_dir_ok OutDirSite d (emit (EvEnter url output) w) Hdir)
    as [w1 Hw1].
  rewrite Hw1.
  destruct (ensure_dir_inv _ _ _ _ _ Hw1) as [Hgr _].
  pose proof (grows_trans _ _ _ _ _ (grows_emit (EvEnter url output) w) Hgr)
    as Hgr1.
  assert (forall u w2 pre, mentions drive_file_prefix u -> grows w w2 pre ->
            exists a f,
              EvDownload a f ∈ new_events w (snd (transfer o d u (PStr p) w2)) /\
              g_fuzzy a = true) as Htr.
  { intros u w2 pre Hu Hpre.
    destruct (transfer_events o d u (PStr p) w2) as (l & Hgl & _).
    rewrite (grows_new_events _ _ _ (grows_trans _ _ _ _ _ Hpre Hgl)).
    revert Hgl. rewrite transfer_run, (py_in_mentions _ _ _ Hu). cbv zeta.
    set (a := GdownArgs _ _ _ _ _ _ _ _ _ _).
    intros Hgl. exists a, (fs w2). split; [|done].
    apply elem_of_app. right.
    assert (exists l', l = EvDownload a (fs w2) :: l') as [l' ->].
    { destruct (gdown_download a (fs w2)) as [[v|e] f'].
      - destruct (emits_after_download o d v
                    (set_fs f' (emit (EvDownload a (fs w2)) w2)))
          as (l2 & Hg2 & _).
        exists l2. eapply grows_inj; [exact Hgl|].
        exact (grows_trans _ _ _ [_] _ (grows_emit _ w2) Hg2).
      - exists []. eapply grows_inj; [exact Hgl|]. done. }
    by left. }
  unfold skip_or_transfer.
  destruct url as [|b|u|n|l]; try by eapply Htr.
  unfold bind, os_fspath, ret, os_path_abspath, os_path_exists.
  cbn [fs emit cwd]. rewrite Hov, andb_false_r.
  eapply Htr; [by apply github_raw_url_mentions_drive|].
  exact (grows_trans _ _ _ _ [_] Hgr1 (grows_emit _ w1)).
Qed.

(** ** Extraction *)

Lemma extractall_event k a d w :
  grows w (snd (extractall k a d w)) [EvExtract k a d (fs w)].
Proof.
  unfold extractall. cbn [fs emit].
  destruct (archive_extractall _ _ _ _) as [[e|] f']; simpl;
    repeat split.
Qed.

(** ** The batch helper *)

Lemma calls_app l1 l2 : calls (l1 ++ l2) = calls l1 ++ calls l2.
Proof. apply omap_app. Qed.

Lemma calls_no_enter l : Forall (fun e => is_enter e = false) l -> calls l = [].
Proof.
  induction 1 as [|e l He _ IH]; [done|].
  destruct e; try done; exact IH.
Qed.

(** A run of [download_file] starts with its entry mark and has no
    other. *)
Lemma download_file_calls url output o w :
  exists l, grows w (snd (download_file url output o w)) l /\
            calls l = [(url, output)].
Proof.
  unfold download_file. unfold bind at 1, tell at 1.
  match goal with
  | |- exists l, grows w (snd (?m _)) l /\ _ =>
      assert (emits (fun e => is_enter e = false) m) as Hm
  end.
  { apply emits_bind;
      [intros w0; exists []; split; [apply grows_refl|constructor]|].
    intros [|]; simpl.
    2:{ apply emits_bind; [by apply emits_tell | intros; apply emits_ret]. }
    unfold os_path_dirname.
    apply emits_bind;
      [apply emits_bind; [apply emits_os_fspath|intros; apply emits_ret]|].
    intros d. apply emits_bind; [apply emits_os_path_abspath|]. intros out_dir.
    apply emits_bind; [by apply emits_ensure_dir|]. intros _.
    assert (forall u out, emits (fun e => is_enter e = false)
                            (transfer o out_dir u out)) as Htr.
    { intros u out. apply emits_transfer; [by intros []|done]. }
    unfold skip_or_transfer. destruct url as [|b|u|n|l0]; try apply Htr.
    apply emits_bind; [apply emits_os_fspath|]. intros p.
    apply emits_bind; [apply emits_os_path_abspath|]. intros a.
    apply emits_bind; [by apply emits_os_path_exists|].
    intros e. destruct (e && negb (overwrite o)); [|apply Htr].
    apply emits_bind; [by apply emits_tell|]. intros _.
    apply emits_bind; [apply emits_os_path_abspath|]. intros. apply emits_ret. }
  destruct (Hm (emit (EvEnter url output) w)) as (l' & Hg' & Hl').
  exists (EvEnter url output :: l'). split.
  - exact (grows_trans _ _ _ [_] _ (grows_emit (EvEnter url output) w) Hg').
  - change (EvEnter url output :: l') with ([EvEnter url output] ++ l').
    by rewrite calls_app, (calls_no_enter l').
Qed.

(** The loop body computes the destination and calls [download_file]
    with it. *)
Lemma download_item_run o dir u fn w :
  download_item o dir u fn w =
    match destination dir u fn with
    | None => (Raise TypeError, w)
    | Some dst =>
        match download_file u (PStr dst) o w with
        | (Ok _, w') => (Ok tt, w')
        | (Raise e, w') => (Raise e, w')
        end
    end.
Proof.
  unfold download_item, destination, os_path_basename, os_path_join,
    os_fspath, bind, ret, raise.
  destruct fn as [|b|f|n|l]; destruct dir as [|b'|d|n'|l'];
    destruct u as [|b''|u|n''|l'']; try reflexivity;
    by destruct (download_file _ _ _ _) as [[]].
Qed.

Lemma download_files_run urls out_dir fns o w :
  download_files urls out_dir fns o w =
    for_each (zip urls (filenames_or_none urls fns))
      (fun '(url, output) => download_item o (dir_or_cwd out_dir w) url output)
      w.
Proof. by destruct out_dir. Qed.

Lemma for_each_cons {A} (x : A) l body w :
  for_each (x :: l) body w =
    match body x w with
    | (Ok _, w1) => for_each l body w1
    | (Raise e, w1) => (Raise e, w1)
    end.
Proof. done. Qed.

Lemma for_each_app {A} (l1 l2 : list A) body w :
  for_each (l1 ++ l2) body w =
    match for_each l1 body w with
    | (Ok _, w1) => for_each l2 body w1
    | (Raise e, w1) => (Raise e, w1)
    end.
Proof.
  revert w. induction l1 as [|x l1 IH]; intros w; [done|].
  simpl. unfold bind. destruct (body x w) as [[[]|e] w1]; [apply IH|done].
Qed.

Lemma for_each_calls o dir items : forall w,
  exists n l,
    grows w (snd (for_each items
                    (fun '(url, output) => download_item o dir url output) w)) l /\
    n <= length items /\
    Forall2 (right_call dir) (calls l) (take n items) /\
    (fst (for_each items
            (fun '(url, output) => download_item o dir url output) w) = Ok tt ->
     n = length items).
Proof.
  induction items as [|[u fn] items IH]; intros w.
  { exists 0, []. repeat split; [by rewrite app_nil_r|done|constructor]. }
  rewrite for_each_cons, download_item_run.
  destruct (destination dir u fn) as [dst|] eqn:Hdst.
  2:{ exists 0, []. repeat split; [by rewrite app_nil_r|simpl; lia|constructor|done]. }
  destruct (download_file_calls u (PStr dst) o w) as (l1 & Hg1 & Hc1).
  destruct (download_file u (PStr dst) o w) as [[v|e] w1]; cbn [fst snd] in *.
  - destruct (IH w1) as (n & l & Hg & Hn & Hall & Hok).
    exists (S n), (l1 ++ l). split; [by eapply grows_trans|].
    split; [simpl; lia|]. split.
    + rewrite calls_app, Hc1. simpl. constructor; [|done]. by exists dst.
    + intros Hr. by rewrite (Hok Hr).
  - exists 1, l1. split; [done|]. split; [simpl; lia|]. split; [|done].
    rewrite Hc1. simpl. rewrite take_0. repeat constructor. by exists dst.
Qed.

Lemma zip_take {A B} n (l : list A) (k : list B) :
  zip (take n l) (take n k) = take n (zip l k).
Proof.
  revert l k. induction n as [|n IH]; intros [|x l] [|y k]; simpl; try done.
  by rewrite IH.
Qed.

Lemma zip_take_min {A B} (l : list A) (k : list B) :
  zip l k =
    zip (take (min (length l) (length k)) l)
        (take (min (length l) (length k)) k).
Proof.
  revert k. induction l as [|x l IH]; intros [|y k]; simpl; try done.
  by rewrite <- IH.
Qed.

Lemma zip_length {A B} (l : list A) (k : list B) :
  length (zip l k) = min (length l) (length k).
Proof.
  revert k. induction l as [|x l IH]; intros [|y k]; simpl; try done.
  by rewrite IH.
Qed.

(** C7: if the first [i] items of the batch went through and
    [download_file] raises on item [i], then [download_files] raises
    the same exception and stops in the very world in which
    [download_file] raised: [download_file] was called [i + 1] times and
    no later item was touched. *)
Theorem download_files_stops_at_failure
    urls out_dir fns o w i u fn dst w_i e w_e :
  zip urls (filenames_or_none urls fns) !! i = Some (u, fn) ->
  download_files (take i urls) out_dir
    (Some (take i (filenames_or_none urls fns))) o w = (Ok tt, w_i) ->
  destination (dir_or_cwd out_dir w) u fn = Some dst ->
  download_file u (PStr dst) o w_i = (Raise e, w_e) ->
  download_files urls out_dir fns o w = (Raise e, w_e) /\
  length (calls (new_events w w_e)) = S i.
Proof.
  intros Hi Hpre Hdst Hfail.
  rewrite download_files_run in Hpre |- *. cbn [filenames_or_none] in Hpre.
  rewrite zip_take in Hpre.
  set (items := zip urls (filenames_or_none urls fns)) in *.
  set (body := fun '(url, output) =>
                 download_item o (dir_or_cwd out_dir w) url output) in *.
  assert (body (u, fn) w_i = (Raise e, w_e)) as Hbody.
  { unfold body. by rewrite download_item_run, Hdst, Hfail. }
  split.
  - rewrite <- (take_drop_middle _ _ _ Hi).
    by rewrite for_each_app, Hpre, for_each_cons, Hbody.
  - destruct (for_each_calls o (dir_or_cwd out_dir w) (take i items) w)
      as (n & l & Hg & Hn & Hall & Hok).
    fold body in Hg, Hok. rewrite Hpre in Hg, Hok. cbn [fst snd] in Hg, Hok.
    specialize (Hok eq_refl). subst n.
    apply Forall2_length in Hall. rewrite firstn_all in Hall.
    apply lookup_lt_Some in Hi.
    rewrite length_take, Nat.min_l in Hall by lia.
    destruct (download_file_calls u (PStr dst) o w_i) as (l1 & Hg1 & Hc1).
    rewrite Hfail in Hg1. cbn [snd] in Hg1.
    rewrite (grows_new_events _ _ _ (grows_trans _ _ _ _ _ Hg Hg1)).
    rewrite calls_app, length_app, Hall, Hc1. simpl. lia.
Qed.

End Runs.

(** ** Rewriting GitHub URLs *)

Lemma replace_go_skip old new t b :
  Str.replace_go old new (String.length t) (t +:+ b) = Str.replace_go old new 0 b.
Proof. induction t as [|c t IH]; [done|]. exact IH. Qed.

Lemma length_string_app (a b : string) :
  String.length (a +:+ b) = String.length a + String.length b.
Proof. induction a as [|c a IH]; simpl; [done|]. by rewrite IH. Qed.

(** [Str.replace] computes the replacement. *)
Lemma replace_replaced old new s :
  old <> "" -> replaced old new s (Str.replace s old new).
Proof.
  intros Hne. destruct old as [|b old]; [done|]. unfold Str.replace.
  remember (String.length s) as n eqn:Hn.
  revert s Hn. induction n as [n IH] using lt_wf_ind. intros s Hn.
  destruct s as [|c s]; [constructor|].
  cbn [Str.replace_go].
  destruct (Str.startswith (String c s) (String b old)) eqn:Hm.
  - destruct (StrFacts.startswith_inv _ _ Hm) as [r Hr].
    injection Hr as -> ->.
    replace (String.length (String b old) - 1) with (String.length old)
      by (simpl; lia).
    rewrite replace_go_skip.
    apply (replaced_match (String b old)).
    apply (IH (String.length r)); [|done].
    subst n. simpl. rewrite length_string_app. lia.
  - apply replaced_keep; [done|].
    apply (IH (String.length s)); [subst n; simpl; lia | done].
Qed.

(** C2: for a string that starts with ["https://github.com/"] and
    contains ["blob"], [github_raw_url] returns the string in which
    first every ["github.com"] was replaced by
    ["raw.githubusercontent.com"] and then every ["blob/"] was removed;
    every other value, string or not, comes back unchanged. *)
Theorem github_raw_url_rewrites v :
  (forall u, v = PStr u ->
     Str.startswith u "https://github.com/" = true ->
     Str.contains "blob" u = true ->
     exists t r,
       replaced "github.com" "raw.githubusercontent.com" u t /\
       replaced "blob/" "" t r /\
       github_raw_url v = PStr r) /\
  ((forall u, v = PStr u ->
      Str.startswith u "https://github.com/" && Str.contains "blob" u = false) ->
   github_raw_url v = v).
Proof.
  split.
  - intros u -> Hgh Hblob. unfold github_raw_url. rewrite Hgh, Hblob.
    eexists _, _. split; [|split; [|reflexivity]];
      by apply replace_replaced.
  - intros Hother. destruct v as [|b|u|n|l]; try done.
    unfold github_raw_url. by rewrite (Hother u eq_refl).
Qed.

(** The relation has one outcome, the one [Str.replace] computes. *)
Lemma replaced_is_replace old new s t :
  old <> "" -> replaced old new s t -> t = Str.replace s old new.
Proof.
  intros Hne Hr. destruct old as [|b old]; [done|]. unfold Str.replace.
  induction Hr as [|s t _ IH|c s t Hc _ IH]; [done| |].
  - change (String b old +:+ s) with (String b (old +:+ s)).
    cbn [Str.replace_go].
    change (String b (old +:+ s)) with (String b old +:+ s).
    rewrite StrFacts.startswith_app.
    replace (String.length (String b old) - 1) with (String.length old)
      by (simpl; lia).
    by rewrite replace_go_skip, IH.
  - cbn [Str.replace_go]. by rewrite Hc, IH.
Qed.

(** * The properties on the concrete machine *)

(** C5 on the machine without [gdown]. *)
Lemma download_file_without_gdown_witness :
  let (r, w') :=
    @download_file plain_libs (PStr "http://x.org/a.txt") PNone
      default_options w_bare in
  r = Ok PNone /\ fs w' = fs w_bare /\
  log w' = log w_bare ++
    [EvEnter (PStr "http://x.org/a.txt") PNone; EvPrint gdown_missing_msg].
Proof.
  apply (@download_file_without_gdown plain_libs
           (PStr "http://x.org/a.txt") PNone default_options w_bare).
  reflexivity.
Defined.

(** C1 as stated fails: without [gdown] the existing file is not
    returned, [None] is. *)
Lemma download_file_skip_counterexample :
  fs w_bare !! PosixPath.abspath (cwd w_bare) "a.txt" = Some File /\
  overwrite default_options = false /\
  fst (@download_file plain_libs (PStr "http://x.org/a.txt") (PStr "a.txt")
         default_options w_bare) = Ok PNone /\
  Ok PNone <> Ok (PStr (PosixPath.abspath (cwd w_bare) "a.txt")).
Proof. repeat split; [vm_compute; reflexivity..|discriminate]. Qed.

(** C1 on the machine with [gdown]. *)
Lemma download_file_skips_existing_witness :
  exists w' l,
    @download_file plain_libs (PStr "http://x.org/a.txt") PNone
      default_options w_home =
      (Ok (PStr (PosixPath.abspath (cwd w_home) "a.txt")), w') /\
    grows w_home w' l /\ Forall (fun e => is_download e = false) l.
Proof.
  apply (@download_file_skips_existing plain_libs "http://x.org/a.txt" PNone
           default_options w_home "a.txt"); vm_compute; reflexivity.
Defined.

(** The directory matters too: the output path below is the existing
    file, yet the directory named in it cannot be made, and the call
    raises. *)
Lemma download_file_skip_blocked_directory :
  fs w_home !! PosixPath.abspath (cwd w_home) "a.txt/sub/.." = Some File /\
  fst (@download_file plain_libs (PStr "http://x.org/a.txt")
         (PStr "a.txt/sub/..") default_options w_home)
  = Raise NotADirectoryError.
Proof. split; vm_compute; reflexivity. Qed.


(** Nor is it a [TypeError] when the directory cannot be made. *)
Lemma download_file_url_none_blocked_directory :
  fst (@download_file plain_libs PNone (PStr "a.txt/sub/x") default_options
         w_home)
  = Raise NotADirectoryError.
Proof. vm_compute; reflexivity. Qed.

(** C6 on a shared Google-Drive link, [fuzzy] not asked for. *)
Lemma drive_url_forces_fuzzy_witness :
  fuzzy default_options = false /\ g_fuzzy drive_args = true.
Proof.
  split; [reflexivity|].
  apply (@drive_url_forces_fuzzy plain_libs drive_url (PStr "d.bin")
           default_options w_home drive_args home_fs).
  - constructor. vm_compute. reflexivity.
  - vm_compute. repeat constructor.
Defined.

(** On the batch of three urls and two filenames ([batch_urls],
    [batch_names]) the first item goes to ["/home/u/a.bin"], the second
    to ["/home/u/b.bin"], and the second call fails: [7] is no url. *)
Lemma batch_run :
  let run := @download_files plain_libs batch_urls PNone (Some batch_names)
               default_options w_home in
  fst run = Raise TypeError /\
  calls (new_events w_home (snd run)) =
    [(PStr "http://x.org/a.bin", PStr "/home/u/a.bin");
     (PInt 7, PStr "/home/u/b.bin")].
Proof. split; vm_compute; reflexivity. Qed.

(** C7 on that batch: the second item fails. *)
Lemma download_files_stops_at_failure_witness :
  @download_files plain_libs batch_urls PNone (Some batch_names)
    default_options w_home = (Raise TypeError, w_failed) /\
  length (calls (new_events w_home w_failed)) = 2.
Proof.
  apply (@download_files_stops_at_failure plain_libs batch_urls PNone
           (Some batch_names) default_options w_home 1 (PInt 7)
           (PStr "b.bin") "/home/u/b.bin" w_after_first TypeError w_failed).
  - reflexivity.
  - vm_compute. reflexivity.
  - reflexivity.
  - vm_compute. reflexivity.
Defined.

(** With more filenames than urls, the extra filename is ignored and
    both urls are fetched. *)
Lemma batch_run_more_names :
  let run := @download_files plain_libs
               [PStr "http://x.org/a.bin"; PStr "http://x.org/c.bin"]
               (PStr "/data") (Some [PNone; PStr "k.bin"; PStr "extra"])
               default_options w_home in
  fst run = Ok tt /\
  calls (new_events w_home (snd run)) =
    [(PStr "http://x.org/a.bin", PStr "/data/a.bin");
     (PStr "http://x.org/c.bin", PStr "/data/k.bin")].
Proof. split; vm_compute; reflexivity. Qed.

(** C2 on a blob URL, and what it says about other values. *)
Lemma github_raw_url_rewrites_witness :
  (exists t r,
     replaced "github.com" "raw.githubusercontent.com"
       "https://github.com/u/r/blob/main/f.py" t /\
     replaced "blob/" "" t r /\
     github_raw_url (PStr "https://github.com/u/r/blob/main/f.py") = PStr r) /\
  github_raw_url (PStr "https://example.org/blob/f.py")
  = PStr "https://example.org/blob/f.py".
Proof.
  split.
  - apply (proj1 (github_raw_url_rewrites
                    (PStr "https://github.com/u/r/blob/main/f.py")) _ eq_refl);
      reflexivity.
  - apply (proj2 (github_raw_url_rewrites
                    (PStr "https://example.org/blob/f.py"))).
    intros u [= <-]. reflexivity.
Defined.

(** One pass only: a ["blob/"] that the removal itself brings about
    stays. *)
Lemma github_raw_url_single_pass :
  github_raw_url (PStr "https://github.com/u/blblob/ob/f.py")
  = PStr "https://raw.githubusercontent.com/u/blob/f.py".
Proof. reflexivity. Qed.

Lemma github_raw_url_example :
  github_raw_url (PStr "https://github.com/u/r/blob/main/f.py")
  = PStr "https://raw.githubusercontent.com/u/r/main/f.py" /\
  github_raw_url (PStr "https://github.com/u/r/tree/main") 
  = PStr "https://github.com/u/r/tree/main" /\
  github_raw_url (PInt 3) = PInt 3 /\
  github_raw_url PNone = PNone.
Proof. repeat split. Qed.

(** The archive suffix [.tar.gz] loses only [.gz] in the name of the
    subfolder. *)
Lemma subfolder_of_tar_gz :
  extract_dest subfolder_options "/home/u/data" "data/d.tar.gz"
  = "/home/u/data/d.tar".
Proof. reflexivity. Qed.

(** * Further properties *)

(** ** The rewritten URL *)

Lemma github_raw_url_prefix u :
  Str.startswith u "https://github.com/" = true ->
  Str.startswith
    (Str.replace (Str.replace u "github.com" "raw.githubusercontent.com")
       "blob/" "")
    "https://raw.githubusercontent.com/" = true.
Proof.
  intros Hu. destruct (StrFacts.startswith_inv _ _ Hu) as [rest ->].
  apply StrFacts.keep_match; [reflexivity|].
  vm_compute. apply StrFacts.startswith_nil.
Qed.

(** X1: a GitHub blob URL comes back as a URL on
    [raw.githubusercontent.com]. *)
Theorem github_raw_url_host u :
  Str.startswith u "https://github.com/" = true ->
  Str.contains "blob" u = true ->
  exists r, github_raw_url (PStr u) = PStr r /\
            Str.startswith r "https://raw.githubusercontent.com/" = true.
Proof.
  intros Hu Hb. eexists. split; [|by apply github_raw_url_prefix].
  unfold github_raw_url. by rewrite Hu, Hb.
Qed.

(** X2: rewriting twice is rewriting once: a rewritten URL is no GitHub
    page URL any more. *)
Theorem github_raw_url_idempotent v :
  github_raw_url (github_raw_url v) = github_raw_url v.
Proof.
  destruct v as [|b|u|n|l]; try done.
  assert (github_raw_url (PStr u) = PStr u \/
          exists r, github_raw_url (PStr u) = PStr r /\
            Str.startswith r "https://raw.githubusercontent.com/" = true)
    as [Hsame|(r & Hr & Hp)].
  { unfold github_raw_url.
    destruct (Str.startswith u "https://github.com/") eqn:Hu; [|by left].
    destruct (Str.contains "blob" u); [|by left].
    right. eexists. split; [done|]. by apply github_raw_url_prefix. }
  - by rewrite !Hsame.
  - rewrite Hr. unfold github_raw_url.
    destruct (Str.startswith r "https://github.com/") eqn:Hg; [|done].
    pose proof (StrFacts.startswith_comparable _ _ _ Hp Hg) as Hc.
    vm_compute in Hc. done.
Qed.

(** ** The shape of a run *)

Section MoreRuns.
Context `{External}.

Lemma transfer_shape o d u out w :
  transfer o d u out w = (Raise TypeError, w) \/
  transfer o d u out w =
    from_download o d
      (GdownArgs u out (quiet o) (proxy o) (speed o) (use_cookies o)
         (verify o) (id o) (occurs_in drive_file_prefix u || fuzzy o)
         (resume o)) w.
Proof.
  rewrite transfer_run. unfold from_download.
  destruct u as [|b|s|n|l]; simpl; auto; right;
    by destruct (gdown_download _ (fs w)) as [[v|e] f'].
Qed.

(** A run either ends before any transfer or extraction step, or gets
    to the call of [gdown.download] with [sent_args]. *)
Lemma download_file_shape url output o w :
  (exists pre, grows w (snd (download_file url output o w)) pre /\
               Forall calm pre) \/
  (exists p w2 pre,
     default_output url output = PStr p /\
     grows w w2 pre /\ Forall calm pre /\
     download_file url output o w =
       from_download o (PosixPath.abspath (cwd w) (PosixPath.dirname p))
         (sent_args o url output) w2).
Proof.
  destruct (gdown_installed w) eqn:Hg.
  2:{ left. rewrite download_file_no_gdown by done. eexists. split.
      - repeat split. simpl. by rewrite <- app_assoc.
      - by repeat constructor. }
  destruct (is_str (default_output url output)) eqn:Hstr.
  2:{ left. rewrite download_file_no_path by done. eexists. split.
      - apply grows_emit.
      - by repeat constructor. }
  destruct (default_output url output) as [|b|p|n|l] eqn:Hp; try done.
  rewrite (download_file_path _ _ _ _ p) by done. cbv zeta.
  set (d := PosixPath.abspath (cwd w) (PosixPath.dirname p)).
  destruct (ensure_dir OutDirSite d (emit (EvEnter url output) w))
    as [r w1] eqn:Hw1.
  destruct (ensure_dir_inv _ _ _ _ _ Hw1) as [Hgr _].
  pose proof (grows_trans _ _ _ _ _ (grows_emit (EvEnter url output) w) Hgr)
    as Hgr1. cbn [fs emit app] in Hgr1.
  assert (Forall calm
            (EvEnter url output :: EvExists OutDirSite d (fs w) ::
             if exists_in (fs w) d then [] else [EvMakedirs d])) as Hpre.
  { destruct (exists_in (fs w) d); by repeat constructor. }
  destruct r as [[]|ex]; [|left; by eexists].
  assert (forall w2 pre, grows w w2 pre -> Forall calm pre ->
            (exists pre, grows w (snd (transfer o d (sent_url url) (PStr p) w2))
                           pre /\ Forall calm pre) \/
            (exists p0 w3 pre,
               PStr p = PStr p0 /\ grows w w3 pre /\ Forall calm pre /\
               transfer o d (sent_url url) (PStr p) w2 =
                 from_download o
                   (PosixPath.abspath (cwd w) (PosixPath.dirname p0))
                   (sent_args o url output) w3)) as Htr.
  { intros w2 pre Hg2 Hcalm.
    destruct (transfer_shape o d (sent_url url) (PStr p) w2) as [-> | ->].
    - left. by exists pre.
    - right. exists p, w2, pre. unfold sent_args. by rewrite Hp. }
  unfold skip_or_transfer.
  destruct url as [|b|u|n|l]; try by eapply (Htr w1).
  unfold bind, os_fspath, ret, os_path_abspath, os_path_exists, print, tell.
  cbn [fs emit cwd].
  set (ab := PosixPath.abspath (cwd w1) p).
  set (w2 := emit (EvExists SkipSite ab (fs w1)) w1).
  pose proof (grows_trans _ _ _ _ _ Hgr1 (grows_emit _ w1 : grows w1 w2 _))
    as Hgr2.
  assert (Forall calm
            ((EvEnter (PStr u) output :: EvExists OutDirSite d (fs w) ::
              (if exists_in (fs w) d then [] else [EvMakedirs d])) ++
             [EvExists SkipSite ab (fs w1)])) as Hpre2.
  { rewrite Forall_app. split; [done|by repeat constructor]. }
  destruct (exists_in (fs w1) ab && negb (overwrite o)).
  - left. eexists. split.
    + exact (grows_trans _ _ _ _ _ Hgr2 (grows_emit (EvPrint (skip_msg p)) w2)).
    + rewrite Forall_app. split; [done|by repeat constructor].
  - by eapply (Htr w2).
Qed.

(** The events of [from_download]: the call, then extraction events. *)
Lemma from_download_events o d a w2 :
  exists ext, grows w2 (snd (from_download o d a w2))
                (EvDownload a (fs w2) :: ext) /\
              Forall extraction_event ext.
Proof.
  unfold from_download. destruct (gdown_download a (fs w2)) as [[v|e] f'].
  - destruct (emits_after_download o d v
                (set_fs f' (emit (EvDownload a (fs w2)) w2)))
      as (ext & Hg & Hext).
    exists ext. split; [|done].
    exact (grows_trans _ _ _ [_] _ (grows_emit _ w2) Hg).
  - exists []. split; [done|constructor].
Qed.

(** A call of [gdown.download] found in the log of [download_file]
    pins down the whole run. *)
Lemma download_file_downloaded url output o w a f :
  EvDownload a f ∈ new_events w (snd (download_file url output o w)) ->
  exists p w2 pre,
    default_output url output = PStr p /\
    grows w w2 pre /\ Forall calm pre /\
    f = fs w2 /\ a = sent_args o url output /\
    download_file url output o w =
      from_download o (PosixPath.abspath (cwd w) (PosixPath.dirname p)) a w2.
Proof.
  intros Hin.
  destruct (download_file_shape url output o w)
    as [(pre & Hg & Hcalm) | (p & w2 & pre & Hp & Hg & Hcalm & Hrun)].
  - rewrite (grows_new_events _ _ _ Hg) in Hin.
    rewrite Forall_forall in Hcalm. by destruct (Hcalm _ Hin).
  - exists p, w2, pre.
    destruct (from_download_events o
                (PosixPath.abspath (cwd w) (PosixPath.dirname p))
                (sent_args o url output) w2) as (ext & Hge & Hext).
    rewrite Hrun in Hin.
    rewrite (grows_new_events _ _ _ (grows_trans _ _ _ _ _ Hg Hge)) in Hin.
    assert (a = sent_args o url output /\ f = fs w2) as [-> ->].
    { apply elem_of_app in Hin as [Hin|Hin].
      - rewrite Forall_forall in Hcalm. by destruct (Hcalm _ Hin).
      - apply elem_of_cons in Hin as [[= -> ->]|Hin]; [done|].
        rewrite Forall_forall in Hext. by destruct (Hext _ Hin). }
    done.
Qed.

(** ** What is handed to [gdown.download] *)

(** X3: every call of [gdown.download] that a run of [download_file]
    makes carries the url (rewritten by [github_raw_url] if it is a
    string), the output path with its default applied, and [quiet],
    [proxy], [speed], [use_cookies], [verify], [id] and [resume] as the
    caller gave them; [fuzzy] is [True] if the Google-Drive prefix occurs
    in the url sent, and the caller's otherwise. *)
Theorem gdown_gets_the_options url output o w a f :
  EvDownload a f ∈ new_events w (snd (download_file url output o w)) ->
  g_url a = (if is_str url then github_raw_url url else url) /\
  g_output a = default_output url output /\
  g_quiet a = quiet o /\ g_proxy a = proxy o /\ g_speed a = speed o /\
  g_use_cookies a = use_cookies o /\ g_verify a = verify o /\
  g_id a = id o /\ g_resume a = resume o /\
  g_fuzzy a = (occurs_in drive_file_prefix (g_url a) || fuzzy o).
Proof.
  intros Hin.
  destruct (download_file_downloaded _ _ _ _ _ _ Hin)
    as (p & w2 & pre & _ & _ & _ & _ & -> & _).
  by repeat split.
Qed.

(** X4: a run of [download_file] calls [gdown.download] at most once,
    and opens or extracts an archive only after that call: its events
    are steps that neither transfer nor extract, then possibly one call
    of [gdown.download] followed by steps of the extraction only. *)
Theorem one_transfer_then_extraction url output o w :
  exists pre post,
    new_events w (snd (download_file url output o w)) = pre ++ post /\
    Forall calm pre /\
    (post = [] \/
     exists a f ext, post = EvDownload a f :: ext /\
                     Forall extraction_event ext).
Proof.
  destruct (download_file_shape url output o w)
    as [(pre & Hg & Hcalm) | (p & w2 & pre & Hp & Hg & Hcalm & Hrun)].
  - exists pre, []. rewrite (grows_new_events _ _ _ Hg), app_nil_r. auto.
  - destruct (from_download_events o
                (PosixPath.abspath (cwd w) (PosixPath.dirname p))
                (sent_args o url output) w2) as (ext & Hge & Hext).
    exists pre, (EvDownload (sent_args o url output) (fs w2) :: ext).
    rewrite Hrun, (grows_new_events _ _ _ (grows_trans _ _ _ _ _ Hg Hge)).
    split; [done|]. split; [done|]. right. by eexists _, _, _.
Qed.

(** ** When the transfer goes wrong *)

Lemma grows_download a f' w2 :
  grows w2 (set_fs f' (emit (EvDownload a (fs w2)) w2)) [EvDownload a (fs w2)].
Proof. done. Qed.

Lemma calm_no_extraction l :
  Forall calm l -> Forall (fun e => is_extraction e = false) l.
Proof. intros Hl. eapply Forall_impl; [exact Hl|]. by intros e [_ He]. Qed.

(** X5: an exception raised by [gdown.download] comes out of
    [download_file] as it is; the file system is left as
    [gdown.download] left it and no archive is opened. *)
Theorem gdown_exception_propagates url output o w a f e f1 :
  EvDownload a f ∈ new_events w (snd (download_file url output o w)) ->
  gdown_download a f = (Raise e, f1) ->
  fst (download_file url output o w) = Raise e /\
  fs (snd (download_file url output o w)) = f1 /\
  Forall (fun x => is_extraction x = false)
    (new_events w (snd (download_file url output o w))).
Proof.
  intros Hin Hgd.
  destruct (download_file_downloaded _ _ _ _ _ _ Hin)
    as (p & w2 & pre & _ & Hg & Hcalm & -> & Ha & ->).
  unfold from_download. rewrite Hgd. cbn [fst snd]. split; [done|].
  split; [done|].
  rewrite (grows_new_events _ _ _
             (grows_trans _ _ _ _ _ Hg (grows_download a f1 w2))).
  rewrite Forall_app. split; [by apply calm_no_extraction|by repeat constructor].
Qed.

Lemma after_download_not_str o d v w :
  is_str v = false ->
  after_download o d v w =
    (Raise (if unzip o then AttributeError else TypeError), w).
Proof.
  intros Hv. unfold after_download, unzip_block.
  destruct (unzip o); by destruct v.
Qed.

(** X6: when [gdown.download] returns something that is no string
    ([None] after a failed download), [download_file] raises
    [AttributeError] if [unzip] is on and [TypeError] if it is off;
    no archive is opened. *)
Theorem gdown_returns_no_path url output o w a f v f1 :
  EvDownload a f ∈ new_events w (snd (download_file url output o w)) ->
  gdown_download a f = (Ok v, f1) ->
  is_str v = false ->
  fst (download_file url output o w) =
    Raise (if unzip o then AttributeError else TypeError) /\
  fs (snd (download_file url output o w)) = f1 /\
  Forall (fun x => is_extraction x = false)
    (new_events w (snd (download_file url output o w))).
Proof.
  intros Hin Hgd Hv.
  destruct (download_file_downloaded _ _ _ _ _ _ Hin)
    as (p & w2 & pre & _ & Hg & Hcalm & -> & Ha & ->).
  unfold from_download. rewrite Hgd, after_download_not_str by done.
  cbn [fst snd]. split; [done|]. split; [done|].
  rewrite (grows_new_events _ _ _
             (grows_trans _ _ _ _ _ Hg (grows_download a f1 w2))).
  rewrite Forall_app. split; [by apply calm_no_extraction|by repeat constructor].
Qed.

Lemma unzip_block_plain o d name w :
  unzip o = false \/ archive_kind_of name = None ->
  unzip_block o d (PStr name) w = (Ok (PStr name), w).
Proof.
  unfold unzip_block, archive_kind_of, py_endswith, bind, ret.
  intros [-> | Hk]; [done|]. destruct (unzip o); [|done].
  destruct (Str.endswith name ".zip"); [done|].
  destruct (Str.endswith name ".tar.gz"); [done|].
  by destruct (Str.endswith name ".tar").
Qed.

Lemma after_download_plain o d name w :
  unzip o = false \/ archive_kind_of name = None ->
  after_download o d (PStr name) w =
    (Ok (PStr (PosixPath.abspath (cwd w) name)), w).
Proof.
  intros Hplain. unfold after_download. unfold bind at 1.
  by rewrite unzip_block_plain.
Qed.

(** X7: with [unzip] off, or for a downloaded file whose name ends in
    none of [.zip], [.tar.gz] and [.tar], [download_file] returns the
    absolute path of what [gdown.download] returned and opens no
    archive. *)
Theorem plain_download_returns_path url output o w a f name f1 :
  EvDownload a f ∈ new_events w (snd (download_file url output o w)) ->
  gdown_download a f = (Ok (PStr name), f1) ->
  unzip o = false \/ archive_kind_of name = None ->
  fst (download_file url output o w) =
    Ok (PStr (PosixPath.abspath (cwd w) name)) /\
  fs (snd (download_file url output o w)) = f1 /\
  Forall (fun x => is_extraction x = false)
    (new_events w (snd (download_file url output o w))).
Proof.
  intros Hin Hgd Hplain.
  destruct (download_file_downloaded _ _ _ _ _ _ Hin)
    as (p & w2 & pre & _ & Hg & Hcalm & -> & Ha & ->).
  unfold from_download. rewrite Hgd, after_download_plain by done.
  cbn [fst snd cwd set_fs emit fs].
  rewrite (grows_new_events _ _ _
             (grows_trans _ _ _ _ _ Hg (grows_download a f1 w2))).
  destruct Hg as (_ & -> & _). split; [done|]. split; [done|].
  rewrite Forall_app. split; [by apply calm_no_extraction|by repeat constructor].
Qed.

(** ** Archives *)

Lemma unzip_block_archive o d name k w :
  unzip o = true ->
  archive_kind_of name = Some k ->
  unzip_block o d (PStr name) w =
    match archive_open k name (fs w) with
    | None => extract_from k o d name (emit (EvOpen k name) w)
    | Some e => (Raise e, emit (EvOpen k name) w)
    end.
Proof.
  intros Hunzip Hkind. unfold unzip_block, archive_kind_of in *.
  rewrite Hunzip.
  unfold py_endswith, os_fspath, bind, ret, open_archive. cbn [fs emit].
  destruct (Str.endswith name ".zip").
  { injection Hkind as <-. by destruct (archive_open _ _ _). }
  destruct (Str.endswith name ".tar.gz").
  { injection Hkind as <-. by destruct (archive_open _ _ _). }
  destruct (Str.endswith name ".tar"); [|done].
  injection Hkind as <-. by destruct (archive_open _ _ _).
Qed.

(** X8: when the downloaded archive does not open, the exception of
    [zipfile] or [tarfile] comes out of [download_file]; opening was
    the last step: nothing is extracted and no subfolder is made. *)
Theorem unreadable_archive_stops_the_run url output o w a f name f1 k e :
  EvDownload a f ∈ new_events w (snd (download_file url output o w)) ->
  gdown_download a f = (Ok (PStr name), f1) ->
  unzip o = true ->
  archive_kind_of name = Some k ->
  archive_open k name f1 = Some e ->
  fst (download_file url output o w) = Raise e /\
  fs (snd (download_file url output o w)) = f1 /\
  exists pre,
    Forall calm pre /\
    new_events w (snd (download_file url output o w)) =
      pre ++ [EvDownload a f; EvOpen k name].
Proof.
  intros Hin Hgd Hunzip Hkind Hopen.
  destruct (download_file_downloaded _ _ _ _ _ _ Hin)
    as (p & w2 & pre & _ & Hg & Hcalm & -> & Ha & ->).
  unfold from_download. rewrite Hgd. unfold after_download, bind.
  rewrite (unzip_block_archive _ _ _ k) by done.
  cbn [fs set_fs emit]. rewrite Hopen. cbn [fst snd fs].
  split; [done|]. split; [done|]. exists pre. split; [done|].
  apply grows_new_events.
  eapply grows_trans; [exact Hg|]. repeat split. simpl.
  by rewrite <- app_assoc.
Qed.

Lemma extract_from_run k o d name w :
  extract_from k o d name w =
    let w0 := if quiet o then w else emit (EvPrint "Extracting files...") w in
    let dest := extract_dest o d name in
    if subfolder o then
      match ensure_dir SubfolderSite dest w0 with
      | (Ok _, w1) =>
          match extractall k name dest w1 with
          | (Ok _, w2) => (Ok (PStr dest), w2)
          | (Raise e, w2) => (Raise e, w2)
          end
      | (Raise e, w1) => (Raise e, w1)
      end
    else
      match extractall k name dest w0 with
      | (Ok _, w2) => (Ok (PStr name), w2)
      | (Raise e, w2) => (Raise e, w2)
      end.
Proof.
  unfold extract_from, extract_dest, os_path_basename, os_path_join,
    os_path_dirname, os_fspath, print, tell, bind, ret.
  destruct (quiet o), (subfolder o); cbn [negb]; cbv zeta.
  - destruct (ensure_dir _ _ _) as [[[]|] ?]; [|done].
    by destruct (extractall _ _ _ _) as [[[]|] ?].
  - by destruct (extractall _ _ _ _) as [[[]|] ?].
  - destruct (ensure_dir _ _ _) as [[[]|] ?]; [|done].
    by destruct (extractall _ _ _ _) as [[[]|] ?].
  - by destruct (extractall _ _ _ _) as [[[]|] ?].
Qed.

(** X9: after an extraction [download_file] returns the absolute path
    of the subfolder when [subfolder] is on, and of the downloaded
    archive when it is off; if [extractall] raises, its exception comes
    out instead.  The file system is left as [extractall] left it. *)
Theorem extraction_result url output o w p a f name f1 k :
  default_output url output = PStr p ->
  EvDownload a f ∈ new_events w (snd (download_file url output o w)) ->
  gdown_download a f = (Ok (PStr name), f1) ->
  unzip o = true ->
  archive_kind_of name = Some k ->
  archive_open k name f1 = None ->
  let out_dir := PosixPath.abspath (cwd w) (PosixPath.dirname p) in
  let dest := extract_dest o out_dir name in
  (subfolder o = true -> can_ensure f1 dest = true) ->
  exists f_at r f2,
    archive_extractall k name dest f_at = (r, f2) /\
    EvExtract k name dest f_at
      ∈ new_events w (snd (download_file url output o w)) /\
    fs (snd (download_file url output o w)) = f2 /\
    fst (download_file url output o w) =
      match r with
      | None =>
          Ok (PStr (PosixPath.abspath (cwd w)
                      (if subfolder o then dest else name)))
      | Some e => Raise e
      end.
Proof.
  intros Hp Hin Hgd Hunzip Hkind Hopen out_dir dest Hmk.
  destruct (download_file_downloaded _ _ _ _ _ _ Hin)
    as (p' & w2 & pre & Hp' & Hg & Hcalm & -> & Ha & ->).
  rewrite Hp in Hp'. injection Hp' as <-. fold out_dir.
  unfold from_download. rewrite Hgd.
  set (w3 := set_fs f1 (emit (EvDownload a (fs w2)) w2)).
  pose proof (grows_trans _ _ _ _ _ Hg (grows_download a f1 w2)) as Hg3.
  fold w3 in Hg3.
  set (w4 := emit (EvOpen k name) w3).
  set (w5 := if quiet o then w4 else emit (EvPrint "Extracting files...") w4).
  assert (exists l5, grows w w5 l5 /\ fs w5 = f1) as (l5 & Hg5 & Hfs5).
  { subst w5. destruct (quiet o).
    - eexists. split; [|done].
      exact (grows_trans _ _ _ _ _ Hg3 (grows_emit _ w3)).
    - eexists. split; [|done].
      exact (grows_trans _ _ _ _ _
               (grows_trans _ _ _ _ _ Hg3 (grows_emit _ w3)) (grows_emit _ w4)). }
  assert (after_download o out_dir (PStr name) w3 =
          if subfolder o then
            match ensure_dir SubfolderSite dest w5 with
            | (Ok _, w6) =>
                match extractall k name dest w6 with
                | (Ok _, w7) =>
                    (Ok (PStr (PosixPath.abspath (cwd w7) dest)), w7)
                | (Raise e, w7) => (Raise e, w7)
                end
            | (Raise e, w6) => (Raise e, w6)
            end
          else
            match extractall k name dest w5 with
            | (Ok _, w7) => (Ok (PStr (PosixPath.abspath (cwd w7) name)), w7)
            | (Raise e, w7) => (Raise e, w7)
            end) as ->.
  { unfold after_download. unfold bind at 1.
    rewrite (unzip_block_archive _ _ _ k) by done.
    replace (archive_open k name (fs w3)) with (@None exn) by done.
    rewrite extract_from_run. cbv zeta. fold w4 w5 dest.
    destruct (subfolder o).
    - destruct (ensure_dir _ _ _) as [[[]|] ?]; [|done].
      by destruct (extractall _ _ _ _) as [[[]|] ?].
    - by destruct (extractall _ _ _ _) as [[[]|] ?]. }
  assert (forall w6 l6, grows w w6 l6 ->
            exists r f2,
              archive_extractall k name dest (fs w6) = (r, f2) /\
              EvExtract k name dest (fs w6) ∈
                new_events w
                  (snd (match extractall k name dest w6 with
                        | (Ok _, w7) =>
                            (Ok (PStr (PosixPath.abspath (cwd w7)
                                         (if subfolder o then dest else name))),
                             w7)
                        | (Raise e, w7) => (@Raise pyval e, w7)
                        end)) /\
              fs (snd (match extractall k name dest w6 with
                       | (Ok _, w7) =>
                           (Ok (PStr (PosixPath.abspath (cwd w7)
                                        (if subfolder o then dest else name))),
                            w7)
                       | (Raise e, w7) => (@Raise pyval e, w7)
                       end)) = f2 /\
              fst (match extractall k name dest w6 with
                   | (Ok _, w7) =>
                       (Ok (PStr (PosixPath.abspath (cwd w7)
                                    (if subfolder o then dest else name))),
                        w7)
                   | (Raise e, w7) => (@Raise pyval e, w7)
                   end) =
                match r with
                | None =>
                    Ok (PStr (PosixPath.abspath (cwd w)
                                (if subfolder o then dest else name)))
                | Some e => Raise e
                end) as Hex.
  { intros w6 l6 Hg6.
    pose proof (extractall_event k name dest w6) as Hge.
    pose proof (grows_trans _ _ _ _ _ Hg6 Hge) as Hgall.
    revert Hge Hgall. unfold extractall. cbn [fs emit].
    destruct (archive_extractall k name dest (fs w6)) as [[e|] f2];
      intros Hge Hgall; cbn [fst snd] in *.
    - exists (Some e), f2. split; [done|].
      rewrite (grows_new_events _ _ _ Hgall).
      split; [apply elem_of_app; right; by apply list_elem_of_singleton|].
      done.
    - exists None, f2. split; [done|].
      rewrite (grows_new_events _ _ _ Hgall).
      split; [apply elem_of_app; right; by apply list_elem_of_singleton|].
      split; [done|].
      destruct Hg6 as (_ & Hc & _). simpl. by rewrite Hc. }
  destruct (subfolder o) eqn:Hsub.
  - specialize (Hmk eq_refl). rewrite <- Hfs5 in Hmk.
    destruct (ensure_dir_ok SubfolderSite dest w5 Hmk) as [w6 Hw6].
    destruct (ensure_dir_inv _ _ _ _ _ Hw6) as [Hg6 _].
    rewrite Hw6.
    destruct (Hex w6 _ (grows_trans _ _ _ _ _ Hg5 Hg6)) as (r & f2 & H1 & H2 & H3 & H4).
    by exists (fs w6), r, f2.
  - destruct (Hex w5 _ Hg5) as (r & f2 & H1 & H2 & H3 & H4).
    by exists (fs w5), r, f2.
Qed.

(** ** The skip check *)

Lemma skip_or_transfer_str o d u p w :
  skip_or_transfer o d (PStr u) (PStr p) w =
    let a := PosixPath.abspath (cwd w) p in
    let w2 := emit (EvExists SkipSite a (fs w)) w in
    if exists_in (fs w) a && negb (overwrite o)
    then (Ok (PStr a), emit (EvPrint (skip_msg p)) w2)
    else transfer o d (github_raw_url (PStr u)) (PStr p) w2.
Proof.
  unfold skip_or_transfer, bind, os_fspath, ret, os_path_abspath,
    os_path_exists, print, tell. cbn [fs emit cwd].
  by destruct (_ && _).
Qed.

Lemma github_raw_url_str u : exists r, github_raw_url (PStr u) = PStr r.
Proof. unfold github_raw_url. destruct (_ && _); by eexists. Qed.

Lemma transfer_str o d s out w :
  transfer o d (PStr s) out w =
    from_download o d
      (GdownArgs (PStr s) out (quiet o) (proxy o) (speed o) (use_cookies o)
         (verify o) (id o) (occurs_in drive_file_prefix (PStr s) || fuzzy o)
         (resume o)) w.
Proof.
  rewrite transfer_run. unfold from_download. simpl.
  by destruct (gdown_download _ (fs w)) as [[v|e] f'].
Qed.

(** X10: with [overwrite=True] a string url is always handed to
    [gdown.download], whether the output file is there or not (given
    [gdown], an output path and a directory for it). *)
Theorem overwrite_forces_transfer u output o w p :
  gdown_installed w = true ->
  default_output (PStr u) output = PStr p ->
  can_ensure (fs w) (PosixPath.abspath (cwd w) (PosixPath.dirname p)) = true ->
  overwrite o = true ->
  exists f,
    EvDownload (sent_args o (PStr u) output) f
      ∈ new_events w (snd (download_file (PStr u) output o w)).
Proof.
  intros Hg Hp Hdir Hov.
  rewrite (download_file_path _ _ _ _ p) by done. cbv zeta.
  set (d := PosixPath.abspath (cwd w) (PosixPath.dirname p)) in *.
  destruct (ensure_dir_ok OutDirSite d (emit (EvEnter (PStr u) output) w) Hdir)
    as [w1 Hw1].
  rewrite Hw1.
  destruct (ensure_dir_inv _ _ _ _ _ Hw1) as [Hgr _].
  pose proof (grows_trans _ _ _ _ _ (grows_emit (EvEnter (PStr u) output) w) Hgr)
    as Hgr1.
  rewrite skip_or_transfer_str. cbv zeta. rewrite Hov, andb_false_r.
  set (w2 := emit _ w1).
  pose proof (grows_trans _ _ _ _ _ Hgr1 (grows_emit _ w1 : grows w1 w2 _))
    as Hgr2.
  destruct (github_raw_url_str u) as [r Hr].
  assert (sent_args o (PStr u) output =
          GdownArgs (PStr r) (PStr p) (quiet o) (proxy o) (speed o)
            (use_cookies o) (verify o) (id o)
            (occurs_in drive_file_prefix (PStr r) || fuzzy o) (resume o))
    as ->.
  { unfold sent_args, sent_url. cbn [is_str]. by rewrite Hr, Hp. }
  rewrite Hr, transfer_str.
  destruct (from_download_events o d
              (GdownArgs (PStr r) (PStr p) (quiet o) (proxy o) (speed o)
                 (use_cookies o) (verify o) (id o)
                 (occurs_in drive_file_prefix (PStr r) || fuzzy o) (resume o))
              w2) as (ext & Hge & _).
  rewrite (grows_new_events _ _ _ (grows_trans _ _ _ _ _ Hgr2 Hge)).
  exists (fs w2). apply elem_of_app. right. by left.
Qed.

(** X11: for a string url, with [gdown] importable, [overwrite] off
    and the directory in question there or creatable, an output path
    that names its own directory, as one that ends in a slash does, is
    not fetched: [download_file] makes the directory if need be, then
    finds the output "already there" and returns it. *)
Theorem directory_output_is_skipped u output o w p :
  gdown_installed w = true ->
  default_output (PStr u) output = PStr p ->
  PosixPath.abspath (cwd w) p
    = PosixPath.abspath (cwd w) (PosixPath.dirname p) ->
  can_ensure (fs w) (PosixPath.abspath (cwd w) (PosixPath.dirname p)) = true ->
  overwrite o = false ->
  fst (download_file (PStr u) output o w)
    = Ok (PStr (PosixPath.abspath (cwd w) p)) /\
  Forall calm (new_events w (snd (download_file (PStr u) output o w))).
Proof.
  intros Hg Hp Hsame Hdir Hov.
  rewrite (download_file_path _ _ _ _ p) by done. cbv zeta.
  rewrite <- Hsame in *.
  set (d := PosixPath.abspath (cwd w) p) in *.
  destruct (ensure_dir_ok OutDirSite d (emit (EvEnter (PStr u) output) w) Hdir)
    as [w1 Hw1].
  rewrite Hw1.
  destruct (ensure_dir_inv _ _ _ _ _ Hw1) as [Hgr [Hex _]].
  pose proof (grows_trans _ _ _ _ _ (grows_emit (EvEnter (PStr u) output) w) Hgr)
    as Hgr1. cbn [fs emit app] in Hgr1.
  rewrite skip_or_transfer_str. cbv zeta.
  destruct Hgr1 as (Hlog & Hcwd & Hgd).
  rewrite Hcwd. fold d. rewrite Hex, Hov. cbn [andb negb fst snd].
  split; [done|].
  unfold new_events. simpl. rewrite Hlog, <- !app_assoc, drop_app_length.
  simpl. destruct (exists_in (fs w) d); by repeat constructor.
Qed.

(** X12: without [output], a url that is a string but does not start
    with ["http"] gets no default output: [download_file] raises
    [TypeError] right after entry, before any directory is tested or
    made. *)
Theorem no_default_output_without_http u o w :
  gdown_installed w = true ->
  Str.startswith u "http" = false ->
  download_file (PStr u) PNone o w
    = (Raise TypeError, emit (EvEnter (PStr u) PNone) w).
Proof.
  intros Hg Hu. apply download_file_no_path; [done|].
  unfold default_output. by rewrite Hu.
Qed.

(** ** More on batches *)

Lemma for_each_without_gdown o dir items : forall w,
  gdown_installed w = false ->
  Forall (placed dir) items ->
  for_each items (fun '(url, output) => download_item o dir url output) w =
    (Ok tt, World (fs w) (cwd w) false (log w ++ missing_log dir items)).
Proof.
  induction items as [|[u fn] items IH]; intros w Hg Hall.
  { simpl. rewrite app_nil_r, <- Hg. by destruct w. }
  apply Forall_cons in Hall as [[dst Hdst] Hall]. cbn [fst snd] in Hdst.
  rewrite for_each_cons, download_item_run, Hdst.
  rewrite download_file_no_gdown by done.
  rewrite IH by done. cbn [fs cwd log emit]. f_equal. f_equal.
  cbn [missing_log flat_map fst snd]. rewrite Hdst.
  by rewrite <- !app_assoc.
Qed.

(** X13: on a machine without [gdown] a batch whose items all have a
    destination runs to its end: [download_files] enters
    [download_file] and prints the message once for every item, makes
    no directory, transfers nothing, and leaves the file system as it
    was. *)
Theorem batch_without_gdown urls out_dir fns o w :
  gdown_installed w = false ->
  let dir := dir_or_cwd out_dir w in
  let items := zip urls (filenames_or_none urls fns) in
  Forall (placed dir) items ->
  fst (download_files urls out_dir fns o w) = Ok tt /\
  fs (snd (download_files urls out_dir fns o w)) = fs w /\
  new_events w (snd (download_files urls out_dir fns o w))
    = missing_log dir items.
Proof.
  intros Hg dir items Hall. rewrite download_files_run.
  fold dir items. rewrite (for_each_without_gdown o dir items w Hg Hall).
  cbn [fst snd fs]. repeat split.
  unfold new_events. cbn [log]. by rewrite drop_app_length.
Qed.

Lemma download_file_skip_run u p o w :
  gdown_installed w = true ->
  exists_in (fs w) (PosixPath.abspath (cwd w) (PosixPath.dirname p)) = true ->
  exists_in (fs w) (PosixPath.abspath (cwd w) p) = true ->
  overwrite o = false ->
  download_file (PStr u) (PStr p) o w =
    (Ok (PStr (PosixPath.abspath (cwd w) p)),
     World (fs w) (cwd w) true
       (log w ++
        [EvEnter (PStr u) (PStr p);
         EvExists OutDirSite
           (PosixPath.abspath (cwd w) (PosixPath.dirname p)) (fs w);
         EvExists SkipSite (PosixPath.abspath (cwd w) p) (fs w);
         EvPrint (skip_msg p)])).
Proof.
  intros Hg Hd Ha Hov.
  rewrite (download_file_path _ _ _ _ p) by done. cbv zeta.
  unfold ensure_dir, bind, os_path_exists, ret. cbn [fs emit].
  rewrite Hd. cbn [negb]. rewrite skip_or_transfer_str. cbv zeta.
  cbn [fs emit cwd]. rewrite Ha, Hov. cbn [andb negb].
  unfold emit. cbn [fs cwd gdown_installed log]. rewrite Hg.
  by rewrite <- !app_assoc.
Qed.

Lemma for_each_present o dir items : forall w,
  gdown_installed w = true ->
  overwrite o = false ->
  Forall (present dir w) items ->
  exists l,
    for_each items (fun '(url, output) => download_item o dir url output) w =
      (Ok tt, World (fs w) (cwd w) true (log w ++ l)) /\
    Forall calm l /\ length (calls l) = length items.
Proof.
  induction items as [|[u fn] items IH]; intros w Hg Hov Hall.
  { exists []. simpl. rewrite app_nil_r, <- Hg. by destruct w. }
  apply Forall_cons in Hall as [(Hu & dst & Hdst & Ha & Hd) Hall].
  cbn [fst snd] in *. destruct u as [|b|u|n|l0]; try done.
  rewrite for_each_cons, download_item_run, Hdst.
  rewrite download_file_skip_run by done.
  set (w1 := World _ _ _ _).
  destruct (IH w1) as (l & Hrun & Hcalm & Hlen); [done..|].
  rewrite Hrun. eexists. split.
  - subst w1. cbn [fs cwd log]. by rewrite <- app_assoc.
  - split.
    + apply Forall_app. split; [by repeat constructor|done].
    + rewrite calls_app, length_app, Hlen. done.
Qed.

(** X14: running a batch again downloads nothing: on a machine with
    [gdown], without [overwrite], when every item has a string url and
    its destination and the directory of that are there,
    [download_files] goes through all items, calls neither
    [gdown.download] nor an extraction and leaves the file system as it
    was. *)
Theorem batch_of_present_files urls out_dir fns o w :
  gdown_installed w = true ->
  overwrite o = false ->
  let items := zip urls (filenames_or_none urls fns) in
  Forall (present (dir_or_cwd out_dir w) w) items ->
  fst (download_files urls out_dir fns o w) = Ok tt /\
  fs (snd (download_files urls out_dir fns o w)) = fs w /\
  Forall calm (new_events w (snd (download_files urls out_dir fns o w))) /\
  length (calls (new_events w (snd (download_files urls out_dir fns o w))))
    = length items.
Proof.
  intros Hg Hov items Hall. rewrite download_files_run. fold items.
  destruct (for_each_present o (dir_or_cwd out_dir w) items w Hg Hov Hall)
    as (l & -> & Hcalm & Hlen).
  cbn [fst snd fs]. unfold new_events. cbn [log].
  by rewrite drop_app_length.
Qed.

Lemma calls_for_urls dir cs : forall urls,
  Forall2 (right_call dir) cs (zip urls (repeat PNone (length urls))) ->
  Forall2 (fun c u => exists d s, dir = PStr d /\ u = PStr s /\
             c = (u, PStr (PosixPath.join d (PosixPath.basename s))))
    cs urls.
Proof.
  revert cs. intros cs urls. revert cs.
  induction urls as [|u urls IH]; intros cs Hall; simpl in Hall.
  { inversion Hall. constructor. }
  inversion Hall as [|c item cs' items' (dst & Hdst & Hc) Hrest]; subst.
  constructor; [|by apply IH].
  cbn [fst snd] in Hdst. unfold destination in Hdst.
  destruct dir as [|?|d|?|?]; try done.
  destruct u as [|?|s0|?|?]; try done.
  injection Hdst as <-. by exists d, s0.
Qed.

(** X15: with [filenames=None] nothing is cut off: a batch that ends
    normally has called [download_file] once for every url, in order,
    each a string and each with the join of the directory and its
    basename for output. *)
Theorem batch_without_filenames urls out_dir o w :
  fst (download_files urls out_dir None o w) = Ok tt ->
  Forall2 (fun c u => exists d s,
             dir_or_cwd out_dir w = PStr d /\ u = PStr s /\
             c = (u, PStr (PosixPath.join d (PosixPath.basename s))))
    (calls (new_events w (snd (download_files urls out_dir None o w))))
    urls.
Proof.
  rewrite download_files_run. cbn [filenames_or_none]. intros Hok.
  destruct (for_each_calls o (dir_or_cwd out_dir w)
              (zip urls (repeat PNone (length urls))) w)
    as (n & l & Hg & Hn & Hall & Hfull).
  rewrite (grows_new_events _ _ _ Hg).
  rewrite (Hfull Hok), firstn_all in Hall.
  by apply calls_for_urls.
Qed.

(** X16: an item without a destination stops the batch with
    [TypeError] before [download_file] is called for it: that is an
    item whose url is [None], a [bool], a number or a list and has no
    filename, or whose filename or directory is a [bool], a number or a
    list (the values of [pyval] that are no path).  The world is the
    one the items before it left. *)
Theorem item_without_destination urls out_dir fns o w i u fn w_i :
  zip urls (filenames_or_none urls fns) !! i = Some (u, fn) ->
  download_files (take i urls) out_dir
    (Some (take i (filenames_or_none urls fns))) o w = (Ok tt, w_i) ->
  destination (dir_or_cwd out_dir w) u fn = None ->
  download_files urls out_dir fns o w = (Raise TypeError, w_i) /\
  length (calls (new_events w w_i)) = i.
Proof.
  intros Hi Hpre Hdst.
  rewrite download_files_run in Hpre |- *. cbn [filenames_or_none] in Hpre.
  rewrite zip_take in Hpre.
  set (items := zip urls (filenames_or_none urls fns)) in *.
  split.
  - rewrite <- (take_drop_middle _ _ _ Hi).
    by rewrite for_each_app, Hpre, for_each_cons, download_item_run, Hdst.
  - destruct (for_each_calls o (dir_or_cwd out_dir w) (take i items) w)
      as (n & l & Hg & Hn & Hall & Hok).
    rewrite Hpre in Hg, Hok. cbn [fst snd] in Hg, Hok.
    specialize (Hok eq_refl). subst n.
    apply Forall2_length in Hall. rewrite firstn_all in Hall.
    apply lookup_lt_Some in Hi.
    rewrite length_take, Nat.min_l in Hall by lia.
    by rewrite (grows_new_events _ _ _ Hg).
Qed.

(** ** The output directory *)

Lemma ensure_dir_fs s d w w' :
  ensure_dir s d w = (Ok tt, w') ->
  if exists_in (fs w) d then fs w' = fs w
  else makedirs_fs d (fs w) = Ok (fs w').
Proof.
  unfold ensure_dir, bind, os_path_exists, os_makedirs, ret. simpl.
  destruct (exists_in (fs w) d) eqn:Hex; simpl.
  - by intros [= <-].
  - destruct (makedirs_fs d (fs w)) as [f'|e]; [|done]. by intros [= <-].
Qed.

Lemma ensure_dir_is_dir s d w w' :
  ensure_dir s d w = (Ok tt, w') ->
  fs w !! d <> Some File -> fs w' !! d = Some Dir.
Proof.
  intros Hrun Hnf. pose proof (ensure_dir_fs _ _ _ _ Hrun) as Hfs.
  destruct (exists_in (fs w) d) eqn:Hex.
  - rewrite Hfs. apply exists_in_true in Hex as [[|] Hv]; done.
  - by apply makedirs_fs_ok in Hfs as [? _].
Qed.

(** C8, as the code has it: whenever a run of [download_file] gets to
    the skip check, the transfer or the extraction, its log starts with
    the entry mark, the test whether something exists at the path of the
    output's directory and, if nothing did, the [makedirs] call for it;
    the event in question comes after these.  In the file system in
    which the skip check or the transfer ran something exists at that
    path, and it is a directory unless a regular file was there when
    the call began. *)
Theorem output_directory_exists_first url output o w e :
  e ∈ new_events w (snd (download_file url output o w)) ->
  uses_out_dir e = true ->
  exists p rest,
    default_output url output = PStr p /\
    let d := PosixPath.abspath (cwd w) (PosixPath.dirname p) in
    new_events w (snd (download_file url output o w)) =
      EvEnter url output :: EvExists OutDirSite d (fs w) ::
      (if exists_in (fs w) d then [] else [EvMakedirs d]) ++ rest /\
    e ∈ rest /\
    forall f, seen_fs e = Some f ->
      exists_in f d = true /\
      (fs w !! d <> Some File -> f !! d = Some Dir).
Proof.
  intros Hin Huse.
  assert (forall l, e ∈ l -> Forall (fun x => uses_out_dir x = false) l -> False)
    as Hnot.
  { intros l Hl Hall. rewrite Forall_forall in Hall.
    specialize (Hall _ Hl). congruence. }
  revert Hin.
  destruct (gdown_installed w) eqn:Hg.
  2:{ rewrite download_file_no_gdown by done. intros Hin. exfalso.
      eapply Hnot; [exact Hin|].
      unfold new_events. simpl. rewrite <- app_assoc, drop_app_length.
      by repeat constructor. }
  destruct (is_str (default_output url output)) eqn:Hstr.
  2:{ rewrite download_file_no_path by done. intros Hin. exfalso.
      eapply Hnot; [exact Hin|].
      unfold new_events. simpl. rewrite drop_app_length.
      by repeat constructor. }
  destruct (default_output url output) as [|b|p|n|l] eqn:Hp; try done.
  rewrite (download_file_path _ _ _ _ p) by done. cbv zeta.
  set (d := PosixPath.abspath (cwd w) (PosixPath.dirname p)).
  destruct (ensure_dir OutDirSite d (emit (EvEnter url output) w))
    as [r w1] eqn:Hw1.
  destruct (ensure_dir_inv _ _ _ _ _ Hw1) as [Hgr Hr].
  pose proof (grows_trans _ _ _ _ _ (grows_emit (EvEnter url output) w) Hgr)
    as Hgr1. cbn [fs emit app] in Hgr1.
  destruct r as [[]|ex].
  2:{ intros Hin. exfalso. eapply Hnot; [exact Hin|]. cbn [snd].
      rewrite (grows_new_events _ _ _ Hgr1).
      destruct (exists_in (fs w) d); by repeat constructor. }
  destruct Hr as [Hd _].
  pose proof (ensure_dir_is_dir _ _ _ _ Hw1) as Hdir. cbn [fs emit] in Hdir.
  intros Hin. exists p.
  (* the events after the directory check *)
  assert (exists l, grows w1 (snd (skip_or_transfer o d url (PStr p) w1)) l /\
            Forall (fun x => is_enter x = false /\
                      forall f, seen_fs x = Some f -> f = fs w1) l)
    as (l & Hgl & Hall).
  { assert (forall u w2, fs w2 = fs w1 ->
              exists l, grows w2 (snd (transfer o d u (PStr p) w2)) l /\
              Forall (fun x => is_enter x = false /\
                        forall f, seen_fs x = Some f -> f = fs w1) l)
      as Htr.
    { intros u w2 Hfs.
      destruct (transfer_events o d u (PStr p) w2) as (l & Hgl & Hl).
      exists l. split; [done|]. eapply Forall_impl; [exact Hl|].
      intros x [Hx|[a ->]]; [by destruct x as [| | [] | | | |]|].
      split; [done|]. by intros f [= <-]. }
    unfold skip_or_transfer. destruct url as [|b|u|n|l]; try by apply Htr.
    unfold bind, os_fspath, ret, os_path_abspath, os_path_exists, print, tell.
    cbn [fs emit cwd].
    set (a := PosixPath.abspath (cwd w1) p).
    set (w2 := emit (EvExists SkipSite a (fs w1)) w1).
    destruct (exists_in (fs w1) a && negb (overwrite o)).
    - exists [EvExists SkipSite a (fs w1); EvPrint (skip_msg p)]. split.
      + repeat split. simpl. by rewrite <- app_assoc.
      + repeat constructor; try done. by intros f [= <-].
    - destruct (Htr (github_raw_url (PStr u)) w2 eq_refl) as (l & Hgl & Hl).
      exists (EvExists SkipSite a (fs w1) :: l). split.
      + by apply (grows_trans _ _ _ [_] _ (grows_emit _ w1)).
      + constructor; [|done]. split; [done|]. by intros f [= <-]. }
  pose proof (grows_trans _ _ _ _ _ Hgr1 Hgl) as Hgall.
  rewrite (grows_new_events _ _ _ Hgall) in Hin |- *.
  exists l. split; [done|]. split; [done|].
  assert (e ∈ l) as Hel.
  { apply elem_of_app in Hin as [Hin|Hin]; [|done]. exfalso.
    eapply Hnot; [exact Hin|].
    destruct (exists_in (fs w) d); by repeat constructor. }
  split; [done|]. rewrite Forall_forall in Hall.
  intros f Hf. destruct (Hall _ Hel) as [_ Hseen].
  rewrite (Hseen _ Hf). split; [done|]. exact Hdir.
Qed.

(** ** [url=None] *)


(** ** Extraction, and where it goes *)

(** C3, as the code has it: when a run of [download_file] with [unzip]
    on has called [gdown.download], that call returned the name of a
    file ending in [.zip], [.tar.gz] or [.tar], and the archive opens,
    then [extractall] is applied to it: the run ends in the file system
    that [extractall] made of the one it ran in, [f_at].  Without
    [subfolder] the destination is the directory of the downloaded file
    (the output directory, if [gdown.download] returned the output path
    it was given) and [f_at] is what [gdown.download] left.  With
    [subfolder] the destination is the output directory joined with the
    basename of the file less its [os.path.splitext] extension: if
    nothing existed at that path, [f_at] is what [os.makedirs] made of
    the file system [gdown.download] left, otherwise it is that file
    system untouched; so the destination is a directory when the
    extraction runs, unless a regular file was in its place. *)
Theorem archive_is_extracted url output o w p a f name f1 k :
  default_output url output = PStr p ->
  EvDownload a f ∈ new_events w (snd (download_file url output o w)) ->
  gdown_download a f = (Ok (PStr name), f1) ->
  unzip o = true ->
  archive_kind_of name = Some k ->
  archive_open k name f1 = None ->
  let out_dir := PosixPath.abspath (cwd w) (PosixPath.dirname p) in
  let dest := extract_dest o out_dir name in
  (subfolder o = true -> can_ensure f1 dest = true) ->
  exists f_at r f2,
    EvExtract k name dest f_at
      ∈ new_events w (snd (download_file url output o w)) /\
    archive_extractall k name dest f_at = (r, f2) /\
    fs (snd (download_file url output o w)) = f2 /\
    (subfolder o = false ->
     dest = PosixPath.dirname name /\ f_at = f1 /\
     (name = p -> PosixPath.abspath (cwd w) dest = out_dir)) /\
    (subfolder o = true ->
     dest = PosixPath.join out_dir
              (fst (PosixPath.splitext (PosixPath.basename name))) /\
     (if exists_in f1 dest then f_at = f1
      else makedirs_fs dest f1 = Ok f_at /\
           EvMakedirs dest
             ∈ new_events w (snd (download_file url output o w))) /\
     (f1 !! dest <> Some File -> f_at !! dest = Some Dir)).
Proof.
  intros Hp Hin Hgd Hunzip Hkind Hopen out_dir dest Hmk.
  destruct (download_file_downloaded _ _ _ _ _ _ Hin)
    as (p' & w2 & pre & Hp' & Hg & Hcalm & -> & Ha & ->).
  rewrite Hp in Hp'. injection Hp' as <-. fold out_dir.
  unfold from_download. rewrite Hgd.
  set (w3 := set_fs f1 (emit (EvDownload a (fs w2)) w2)).
  pose proof (grows_trans _ _ _ _ _ Hg (grows_download a f1 w2)) as Hg3.
  fold w3 in Hg3.
  set (w4 := emit (EvOpen k name) w3).
  set (w5 := if quiet o then w4 else emit (EvPrint "Extracting files...") w4).
  assert (exists l5, grows w w5 l5 /\ fs w5 = f1) as (l5 & Hg5 & Hfs5).
  { subst w5. destruct (quiet o).
    - eexists. split; [|done].
      exact (grows_trans _ _ _ _ _ Hg3 (grows_emit _ w3)).
    - eexists. split; [|done].
      exact (grows_trans _ _ _ _ _
               (grows_trans _ _ _ _ _ Hg3 (grows_emit _ w3)) (grows_emit _ w4)). }
  assert (snd (after_download o out_dir (PStr name) w3) =
          if subfolder o then
            match ensure_dir SubfolderSite dest w5 with
            | (Ok _, w6) => snd (extractall k name dest w6)
            | (Raise e, w6) => w6
            end
          else snd (extractall k name dest w5)) as ->.
  { unfold after_download. unfold bind at 1.
    rewrite (unzip_block_archive _ _ _ k) by done.
    replace (archive_open k name (fs w3)) with (@None exn) by done.
    rewrite extract_from_run. cbv zeta. fold w4 w5 dest.
    destruct (subfolder o).
    - destruct (ensure_dir _ _ _) as [[[]|] ?]; [|done].
      by destruct (extractall _ _ _ _) as [[[]|] ?].
    - by destruct (extractall _ _ _ _) as [[[]|] ?]. }
  assert (forall w6 l6, grows w w6 l6 ->
            exists r f2,
              archive_extractall k name dest (fs w6) = (r, f2) /\
              new_events w (snd (extractall k name dest w6))
                = l6 ++ [EvExtract k name dest (fs w6)] /\
              fs (snd (extractall k name dest w6)) = f2) as Hex.
  { intros w6 l6 Hg6.
    pose proof (extractall_event k name dest w6) as Hge.
    rewrite (grows_new_events _ _ _ (grows_trans _ _ _ _ _ Hg6 Hge)).
    unfold extractall. cbn [fs emit].
    destruct (archive_extractall k name dest (fs w6)) as [[e|] f2];
      by eexists _, _. }
  unfold extract_dest in dest. destruct (subfolder o) eqn:Hsub.
  - specialize (Hmk eq_refl). rewrite <- Hfs5 in Hmk |- *.
    destruct (ensure_dir_ok SubfolderSite dest w5 Hmk) as [w6 Hw6].
    destruct (ensure_dir_inv _ _ _ _ _ Hw6) as [Hg6 _].
    pose proof (ensure_dir_fs _ _ _ _ Hw6) as Hfs6.
    pose proof (ensure_dir_is_dir _ _ _ _ Hw6) as Hdir6.
    rewrite Hw6.
    destruct (Hex w6 _ (grows_trans _ _ _ _ _ Hg5 Hg6))
      as (r & f2 & H1 & H2 & H3).
    exists (fs w6), r, f2. rewrite H2.
    split; [apply elem_of_app; right; by apply list_elem_of_singleton|].
    split; [done|]. split; [done|]. split; [done|]. intros _.
    split; [done|]. split; [|done].
    destruct (exists_in (fs w5) dest); [done|]. split; [done|].
    apply elem_of_app. left. apply elem_of_app. right.
    apply elem_of_cons. right. by apply list_elem_of_singleton.
  - destruct (Hex w5 _ Hg5) as (r & f2 & H1 & H2 & H3).
    exists (fs w5), r, f2. rewrite H2.
    split; [apply elem_of_app; right; by apply list_elem_of_singleton|].
    split; [done|]. split; [done|]. split; [|done]. intros _.
    split; [done|]. split; [done|]. by intros ->.
Qed.

(** ** The batch, item by item *)

Lemma for_each_is_run_items o dir items : forall w,
  for_each items (fun '(url, output) => download_item o dir url output) w
  = run_items dir o items w.
Proof.
  induction items as [|[u fn] items IH]; intros w; [done|].
  rewrite for_each_cons, download_item_run. cbn [run_items].
  destruct (destination dir u fn) as [dst|]; [|done].
  by destruct (download_file u (PStr dst) o w) as [[v|e] w1].
Qed.

Lemma download_files_is_run_items urls out_dir fns o w :
  download_files urls out_dir fns o w =
    run_items (dir_or_cwd out_dir w) o
      (zip urls (filenames_or_none urls fns)) w.
Proof. by rewrite download_files_run, for_each_is_run_items. Qed.

Lemma run_items_app dir o l1 l2 : forall w,
  run_items dir o (l1 ++ l2) w =
    match run_items dir o l1 w with
    | (Ok _, w1) => run_items dir o l2 w1
    | (Raise e, w1) => (Raise e, w1)
    end.
Proof.
  intros w. rewrite <- !for_each_is_run_items, for_each_app.
  destruct (for_each l1 _ w) as [[[]|e] w1]; [|done].
  by rewrite for_each_is_run_items.
Qed.

Lemma run_items_calls dir o items w :
  exists n l,
    grows w (snd (run_items dir o items w)) l /\
    n <= length items /\
    Forall2 (right_call dir) (calls l) (take n items) /\
    (fst (run_items dir o items w) = Ok tt -> n = length items).
Proof. rewrite <- for_each_is_run_items. apply for_each_calls. Qed.

(** The entry mark is the first event of a run of [download_file],
    and its only entry mark. *)
Lemma download_file_enters url output o w :
  exists l, grows w (snd (download_file url output o w))
              (EvEnter url output :: l) /\
            calls l = [].
Proof.
  unfold download_file. unfold bind at 1, tell at 1.
  match goal with
  | |- exists l, grows w (snd (?m _)) _ /\ _ =>
      assert (emits (fun e => is_enter e = false) m) as Hm
  end.
  { apply emits_bind;
      [intros w0; exists []; split; [apply grows_refl|constructor]|].
    intros [|]; simpl.
    2:{ apply emits_bind; [by apply emits_tell | intros; apply emits_ret]. }
    unfold os_path_dirname.
    apply emits_bind;
      [apply emits_bind; [apply emits_os_fspath|intros; apply emits_ret]|].
    intros d. apply emits_bind; [apply emits_os_path_abspath|]. intros out_dir.
    apply emits_bind; [by apply emits_ensure_dir|]. intros _.
    assert (forall u out, emits (fun e => is_enter e = false)
                            (transfer o out_dir u out)) as Htr.
    { intros u out. apply emits_transfer; [by intros []|done]. }
    unfold skip_or_transfer. destruct url as [|b|u|n|l0]; try apply Htr.
    apply emits_bind; [apply emits_os_fspath|]. intros p.
    apply emits_bind; [apply emits_os_path_abspath|]. intros a.
    apply emits_bind; [by apply emits_os_path_exists|].
    intros e. destruct (e && negb (overwrite o)); [|apply Htr].
    apply emits_bind; [by apply emits_tell|]. intros _.
    apply emits_bind; [apply emits_os_path_abspath|]. intros. apply emits_ret. }
  destruct (Hm (emit (EvEnter url output) w)) as (l' & Hg' & Hl').
  exists l'. split.
  - exact (grows_trans _ _ _ [_] _ (grows_emit (EvEnter url output) w) Hg').
  - by apply calls_no_enter.
Qed.

(** An item that is reached and has a destination gets its call: the
    log of the batch goes on, from where the items before it left it,
    with the entry of [download_file] for its url and destination. *)
Lemma run_items_reaches dir o items w i u fn w_i dst :
  items !! i = Some (u, fn) ->
  run_items dir o (take i items) w = (Ok tt, w_i) ->
  destination dir u fn = Some dst ->
  exists before rest,
    grows w w_i before /\ length (calls before) = i /\
    new_events w (snd (run_items dir o items w))
      = before ++ EvEnter u (PStr dst) :: rest.
Proof.
  intros Hi Hpre Hdst.
  destruct (run_items_calls dir o (take i items) w)
    as (n & before & Hg & Hn & Hall & Hok).
  rewrite Hpre in Hg, Hok. cbn [fst snd] in Hg, Hok.
  specialize (Hok eq_refl). subst n.
  apply Forall2_length in Hall. rewrite firstn_all in Hall.
  pose proof (lookup_lt_Some _ _ _ Hi) as Hlt.
  rewrite length_take, Nat.min_l in Hall by lia.
  exists before.
  assert (run_items dir o items w =
          match download_file u (PStr dst) o w_i with
          | (Ok _, w') => run_items dir o (drop (S i) items) w'
          | (Raise e, w') => (Raise e, w')
          end) as ->.
  { transitivity
      (run_items dir o (take i items ++ (u, fn) :: drop (S i) items) w);
      [by rewrite take_drop_middle|].
    rewrite run_items_app, Hpre. cbn [run_items]. by rewrite Hdst. }
  destruct (download_file_enters u (PStr dst) o w_i) as (l1 & Hg1 & _).
  destruct (download_file u (PStr dst) o w_i) as [[v|e] w1]; cbn [snd] in Hg1.
  - destruct (run_items_calls dir o (drop (S i) items) w1)
      as (n2 & l2 & Hg2 & _).
    exists (l1 ++ l2). split; [done|]. split; [done|].
    apply grows_new_events.
    exact (grows_trans _ _ _ _ _ Hg
             (grows_trans _ _ _ (_ :: _) _ Hg1 Hg2)).
  - exists l1. split; [done|]. split; [done|].
    apply grows_new_events. exact (grows_trans _ _ _ _ _ Hg Hg1).
Qed.

Lemma calls_reached before u out rest :
  calls (before ++ EvEnter u out :: rest) !! length (calls before)
  = Some (u, out).
Proof.
  rewrite calls_app. cbn [calls omap]. 
  by rewrite lookup_app_r, Nat.sub_diag by lia.
Qed.


Lemma zip_lookup_take {A B} (l : list A) (k : list B) i :
  i < min (length l) (length k) ->
  exists x y, l !! i = Some x /\ k !! i = Some y /\
    zip (take (min (length l) (length k)) l)
        (take (min (length l) (length k)) k) !! i = Some (x, y).
Proof.
  intros Hi. rewrite <- zip_take_min.
  destruct (lookup_lt_is_Some_2 l i) as [x Hx]; [lia|].
  destruct (lookup_lt_is_Some_2 k i) as [y Hy]; [lia|].
  exists x, y. split; [done|]. split; [done|].
  revert k i Hx Hy Hi. induction l as [|x0 l IH]; intros [|y0 k] [|i];
    simpl; try done.
  - by intros [= ->] [= ->].
  - intros Hx Hy Hi. apply IH; [done..|lia].
Qed.

(** C10: with a list of [filenames], [download_files] is the run of
    exactly the first [m = min(len(urls), len(filenames))] pairs, url
    [i] with filename [i]: what is beyond, on either side, is dropped
    without an error.  Every one of these pairs before which none
    failed, and which has a destination, gets its call of
    [download_file]; there are never more than [m] calls, and exactly
    [m] when the run ends normally. *)
Theorem download_files_truncates urls out_dir fns o w :
  let m := min (length urls) (length fns) in
  let dir := dir_or_cwd out_dir w in
  let pairs := zip (take m urls) (take m fns) in
  let run := download_files urls out_dir (Some fns) o w in
  length pairs = m /\
  (forall i, i < m ->
     exists u fn, urls !! i = Some u /\ fns !! i = Some fn /\
                  pairs !! i = Some (u, fn)) /\
  run = run_items dir o pairs w /\
  run = download_files (take m urls) out_dir (Some (take m fns)) o w /\
  (forall i u fn w_i dst,
     pairs !! i = Some (u, fn) ->
     run_items dir o (take i pairs) w = (Ok tt, w_i) ->
     destination dir u fn = Some dst ->
     calls (new_events w (snd run)) !! i = Some (u, PStr dst)) /\
  length (calls (new_events w (snd run))) <= m /\
  (fst run = Ok tt -> length (calls (new_events w (snd run))) = m).
Proof.
  intros m dir pairs run.
  assert (pairs = zip urls fns) as Hpairs.
  { subst pairs m. by rewrite <- zip_take_min. }
  assert (run = run_items dir o pairs w) as Hrun.
  { subst run. rewrite download_files_is_run_items. cbn [filenames_or_none].
    by rewrite Hpairs. }
  split; [rewrite Hpairs; apply zip_length|].
  split; [intros i Hi; by apply zip_lookup_take|].
  split; [done|]. split.
  { subst run. rewrite !download_files_run. cbn [filenames_or_none].
    fold pairs. by rewrite Hpairs. }
  rewrite Hrun. split.
  - intros i u fn w_i dst Hi Hpre Hdst.
    destruct (run_items_reaches dir o pairs w i u fn w_i dst Hi Hpre Hdst)
      as (before & rest & Hg & Hlen & Hev).
    rewrite Hev, <- Hlen. apply calls_reached.
  - destruct (run_items_calls dir o pairs w) as (n & l & Hg & Hn & Hall & Hok).
    rewrite (grows_new_events _ _ _ Hg).
    apply Forall2_length in Hall.
    assert (length pairs = m) as Hlen by (rewrite Hpairs; apply zip_length).
    rewrite length_take in Hall. rewrite Hlen in Hn, Hok, Hall.
    split; [lia|]. intros Hr. specialize (Hok Hr). lia.
Qed.

(** ** A directory that cannot be made *)

(** X17: when nothing exists at the path of the output's directory
    and [os.makedirs] raises for it, that exception comes out of
    [download_file] right there: the entry, the directory test and the
    [makedirs] call are all the steps of the run; no skip check,
    transfer or extraction follows. *)
Theorem blocked_directory_stops_the_run url output o w p e :
  gdown_installed w = true ->
  default_output url output = PStr p ->
  let d := PosixPath.abspath (cwd w) (PosixPath.dirname p) in
  exists_in (fs w) d = false ->
  makedirs_fs d (fs w) = Raise e ->
  fst (download_file url output o w) = Raise e /\
  new_events w (snd (download_file url output o w)) =
    [EvEnter url output; EvExists OutDirSite d (fs w); EvMakedirs d].
Proof.
  intros Hg Hp d Hex Hmk.
  rewrite (download_file_path _ _ _ _ p) by done. cbv zeta. fold d.
  unfold ensure_dir, bind, os_path_exists, os_makedirs, ret. cbn [fs emit].
  rewrite Hex. cbn [negb]. cbv zeta. cbn [fs emit]. rewrite Hmk.
  cbn [fst snd fs].
  split; [done|]. unfold new_events. cbn [log emit].
  by rewrite <- !app_assoc, drop_app_length.
Qed.

(** ** Quiet runs *)

Lemma emits_after_download_quiet o d v :
  quiet o = true ->
  emits (fun e => extraction_event e /\ is_print e = false)
    (after_download o d v).
Proof.
  intros Hq.
  assert (forall k a, emits (fun e => extraction_event e /\ is_print e = false)
                        (extract_from k o d a)) as Hex.
  { intros k a. unfold extract_from. rewrite Hq. cbn [negb].
    apply emits_bind; [apply emits_ret|]. intros _.
    unfold os_path_basename, os_path_join, os_path_dirname.
    destruct (subfolder o).
    - apply emits_bind;
        [apply emits_bind; [apply emits_os_fspath|intros; apply emits_ret]|].
      intros b. apply emits_bind.
      { apply emits_bind; [apply emits_os_fspath|]. intros.
        apply emits_bind; [apply emits_os_fspath|intros; apply emits_ret]. }
      intros dest. apply emits_bind; [by apply emits_ensure_dir|]. intros _.
      apply emits_bind; [by apply emits_extractall|]. intros; apply emits_ret.
    - apply emits_bind;
        [apply emits_bind; [apply emits_os_fspath|intros; apply emits_ret]|].
      intros dd. apply emits_bind; [by apply emits_extractall|].
      intros; apply emits_ret. }
  unfold after_download.
  apply emits_bind.
  2:{ intros v'. apply emits_bind; [|intros; apply emits_ret].
      apply emits_bind; [apply emits_os_fspath|].
      intros. apply emits_os_path_abspath. }
  unfold unzip_block. destruct (unzip o); [|apply emits_ret].
  apply emits_bind; [apply emits_py_endswith|]. intros [|].
  - apply emits_bind; [apply emits_os_fspath|]. intros a.
    apply emits_bind; [by apply emits_open_archive|]. intros _. apply Hex.
  - apply emits_bind; [apply emits_py_endswith|]. intros tgz.
    apply emits_bind.
    { destruct tgz; [apply emits_ret|apply emits_py_endswith]. }
    intros [|]; [|apply emits_ret].
    apply emits_bind; [apply emits_os_fspath|]. intros a.
    apply emits_bind; [by apply emits_open_archive|]. intros _. apply Hex.
Qed.

(** X18: [quiet] silences the extraction only.  In a run with
    [quiet=True] nothing is printed from the call of [gdown.download]
    on; the two notices that come before it are printed all the same:
    the one about the missing [gdown] on a machine without it, and the
    one about the existing output when a string url is skipped. *)
Theorem quiet_run_prints_nothing_after_transfer url output o w :
  quiet o = true ->
  (exists pre post,
     new_events w (snd (download_file url output o w)) = pre ++ post /\
     Forall calm pre /\
     Forall (fun e => is_print e = false) post /\
     (post = [] \/ exists a f ext, post = EvDownload a f :: ext)) /\
  (gdown_installed w = false ->
   EvPrint gdown_missing_msg
     ∈ new_events w (snd (download_file url output o w))) /\
  (forall u p,
     url = PStr u ->
     default_output url output = PStr p ->
     gdown_installed w = true ->
     can_ensure (fs w) (PosixPath.abspath (cwd w) (PosixPath.dirname p))
       = true ->
     exists_in (fs w) (PosixPath.abspath (cwd w) p) = true ->
     overwrite o = false ->
     EvPrint (skip_msg p)
       ∈ new_events w (snd (download_file url output o w))).
Proof.
  intros Hq. split; [|split].
  - destruct (download_file_shape url output o w)
      as [(pre & Hg & Hcalm) | (p & w2 & pre & Hp & Hg & Hcalm & Hrun)].
    + exists pre, []. rewrite (grows_new_events _ _ _ Hg), app_nil_r.
      repeat split; auto.
    + set (a := sent_args o url output) in *.
      set (d := PosixPath.abspath (cwd w) (PosixPath.dirname p)) in *.
      assert (exists ext, grows w2 (snd (from_download o d a w2))
                            (EvDownload a (fs w2) :: ext) /\
                          Forall (fun e => is_print e = false) ext)
        as (ext & Hge & Hext).
      { unfold from_download.
        destruct (gdown_download a (fs w2)) as [[v|e] f'].
        - destruct (emits_after_download_quiet o d v Hq
                      (set_fs f' (emit (EvDownload a (fs w2)) w2)))
            as (ext & Hge & Hext).
          exists ext. split.
          + exact (grows_trans _ _ _ [_] _ (grows_emit _ w2) Hge).
          + eapply Forall_impl; [exact Hext|]. by intros x [_ Hx].
        - exists []. split; [done|constructor]. }
      exists pre, (EvDownload a (fs w2) :: ext).
      rewrite Hrun, (grows_new_events _ _ _ (grows_trans _ _ _ _ _ Hg Hge)).
      split; [done|]. split; [done|]. split; [by constructor|].
      right. by eexists _, _, _.
  - intros Hg. rewrite download_file_no_gdown by done.
    unfold new_events. cbn [snd log emit].
    rewrite <- app_assoc, drop_app_length.
    apply elem_of_cons. right. by apply list_elem_of_singleton.
  - intros u p -> Hp Hg Hdir Hthere Hov.
    rewrite (download_file_path _ _ _ _ p) by done. cbv zeta.
    set (d := PosixPath.abspath (cwd w) (PosixPath.dirname p)) in *.
    destruct (ensure_dir_ok OutDirSite d (emit (EvEnter (PStr u) output) w)
                Hdir) as [w1 Hw1].
    rewrite Hw1.
    destruct (ensure_dir_inv _ _ _ _ _ Hw1) as [Hgr [_ Hkeep]].
    pose proof (grows_trans _ _ _ _ _
                  (grows_emit (EvEnter (PStr u) output) w) Hgr) as Hgr1.
    rewrite skip_or_transfer_str. cbv zeta.
    assert (exists_in (fs w1) (PosixPath.abspath (cwd w1) p) = true) as ->.
    { destruct Hgr1 as (_ & -> & _).
      apply exists_in_true in Hthere as [v Hv]. apply exists_in_true.
      exists v. by apply Hkeep. }
    rewrite Hov. cbn [andb negb snd].
    rewrite (grows_new_events _ _ _
               (grows_trans _ _ _ _ _
                  (grows_trans _ _ _ _ _ Hgr1 (grows_emit _ w1))
                  (grows_emit (EvPrint (skip_msg p)) _))).
    apply elem_of_app. right. by apply list_elem_of_singleton.
Qed.

End MoreRuns.

(** * The further properties on concrete machines *)

Lemma github_raw_url_host_witness :
  exists r, github_raw_url (PStr "https://github.com/u/r/blob/main/f.py")
            = PStr r /\
            Str.startswith r "https://raw.githubusercontent.com/" = true.
Proof.
  apply (github_raw_url_host "https://github.com/u/r/blob/main/f.py");
    reflexivity.
Defined.

Lemma gdown_gets_the_options_witness :
  g_url zip_args = PStr "http://x.org/data.zip" /\
  g_output zip_args = PStr "data.zip" /\
  g_quiet zip_args = false /\ g_proxy zip_args = PNone /\
  g_speed zip_args = PNone /\ g_use_cookies zip_args = true /\
  g_verify zip_args = PBool true /\ g_id zip_args = PNone /\
  g_resume zip_args = false /\ g_fuzzy zip_args = false.
Proof.
  apply (@gdown_gets_the_options plain_libs (PStr "http://x.org/data.zip")
           PNone subfolder_options w_home zip_args home_fs).
  vm_compute. repeat constructor.
Defined.

Lemma gdown_exception_propagates_witness :
  let run := @download_file offline_libs (PStr "http://x.org/data.zip") PNone
               subfolder_options w_home in
  fst run = Raise (LibraryError "ConnectionError") /\
  fs (snd run) = home_fs /\
  Forall (fun x => is_extraction x = false) (new_events w_home (snd run)).
Proof.
  apply (@gdown_exception_propagates offline_libs
           (PStr "http://x.org/data.zip") PNone subfolder_options w_home
           zip_args home_fs (LibraryError "ConnectionError") home_fs).
  - vm_compute. repeat constructor.
  - reflexivity.
Defined.

Lemma gdown_returns_no_path_witness :
  let run := @download_file empty_handed_libs (PStr "http://x.org/data.zip")
               PNone subfolder_options w_home in
  fst run = Raise AttributeError /\
  fs (snd run) = home_fs /\
  Forall (fun x => is_extraction x = false) (new_events w_home (snd run)).
Proof.
  apply (@gdown_returns_no_path empty_handed_libs
           (PStr "http://x.org/data.zip") PNone subfolder_options w_home
           zip_args home_fs PNone home_fs).
  - vm_compute. repeat constructor.
  - reflexivity.
  - reflexivity.
Defined.

Lemma plain_download_returns_path_witness :
  let run := @download_file plain_libs drive_url (PStr "d.bin")
               default_options w_home in
  fst run = Ok (PStr "/home/u/d.bin") /\
  fs (snd run) = home_fs /\
  Forall (fun x => is_extraction x = false) (new_events w_home (snd run)).
Proof.
  apply (@plain_download_returns_path plain_libs drive_url (PStr "d.bin")
           default_options w_home drive_args home_fs "d.bin" home_fs).
  - vm_compute. repeat constructor.
  - reflexivity.
  - right. reflexivity.
Defined.

Lemma unreadable_archive_stops_the_run_witness :
  let run := @download_file bad_archive_libs (PStr "http://x.org/data.zip")
               PNone subfolder_options w_home in
  fst run = Raise (LibraryError "BadZipFile") /\
  fs (snd run) = home_fs /\
  exists pre,
    Forall calm pre /\
    new_events w_home (snd run) =
      pre ++ [EvDownload zip_args home_fs; EvOpen Zip "data.zip"].
Proof.
  apply (@unreadable_archive_stops_the_run bad_archive_libs
           (PStr "http://x.org/data.zip") PNone subfolder_options w_home
           zip_args home_fs "data.zip" home_fs Zip
           (LibraryError "BadZipFile")).
  - vm_compute. repeat constructor.
  - reflexivity.
  - reflexivity.
  - reflexivity.
  - reflexivity.
Defined.

Lemma extraction_result_witness :
  let run := @download_file plain_libs (PStr "http://x.org/data.zip") PNone
               subfolder_options w_home in
  exists f_at r f2,
    @archive_extractall plain_libs Zip "data.zip" "/home/u/data" f_at
      = (r, f2) /\
    EvExtract Zip "data.zip" "/home/u/data" f_at
      ∈ new_events w_home (snd run) /\
    fs (snd run) = f2 /\
    fst run =
      match r with
      | None => Ok (PStr "/home/u/data")
      | Some e => Raise e
      end.
Proof.
  apply (@extraction_result plain_libs (PStr "http://x.org/data.zip") PNone
           subfolder_options w_home "data.zip" zip_args home_fs "data.zip"
           home_fs Zip).
  - reflexivity.
  - vm_compute. repeat constructor.
  - reflexivity.
  - reflexivity.
  - reflexivity.
  - reflexivity.
  - intros _. vm_compute. reflexivity.
Defined.

Lemma overwrite_forces_transfer_witness :
  fs w_home !! "/home/u/a.txt" = Some File /\
  exists f,
    EvDownload (sent_args overwrite_options (PStr "http://x.org/a.txt") PNone) f
      ∈ new_events w_home
          (snd (@download_file plain_libs (PStr "http://x.org/a.txt") PNone
                  overwrite_options w_home)).
Proof.
  split; [vm_compute; reflexivity|].
  apply (@overwrite_forces_transfer plain_libs "http://x.org/a.txt" PNone
           overwrite_options w_home "a.txt"); vm_compute; reflexivity.
Defined.

Lemma directory_output_is_skipped_witness :
  exists_in (fs w_home) "/home/u/new" = false /\
  fst (@download_file plain_libs (PStr "http://x.org/a.txt") (PStr "new/")
         default_options w_home) = Ok (PStr "/home/u/new") /\
  Forall calm
    (new_events w_home
       (snd (@download_file plain_libs (PStr "http://x.org/a.txt")
               (PStr "new/") default_options w_home))).
Proof.
  split; [vm_compute; reflexivity|].
  apply (@directory_output_is_skipped plain_libs "http://x.org/a.txt"
           (PStr "new/") default_options w_home "new/");
    vm_compute; reflexivity.
Defined.

Lemma no_default_output_without_http_witness :
  @download_file plain_libs (PStr "ftp://x.org/a.txt") PNone default_options
    w_home
  = (Raise TypeError, emit (EvEnter (PStr "ftp://x.org/a.txt") PNone) w_home).
Proof.
  apply (@no_default_output_without_http plain_libs "ftp://x.org/a.txt"
           default_options w_home); reflexivity.
Defined.

Lemma batch_without_gdown_witness :
  let run := @download_files plain_libs
               [PStr "http://x.org/a.bin"; PStr "http://x.org/c.bin"] PNone
               None default_options w_bare in
  fst run = Ok tt /\ fs (snd run) = fs w_bare /\
  new_events w_bare (snd run) =
    [EvEnter (PStr "http://x.org/a.bin") (PStr "/home/u/a.bin");
     EvPrint gdown_missing_msg;
     EvEnter (PStr "http://x.org/c.bin") (PStr "/home/u/c.bin");
     EvPrint gdown_missing_msg].
Proof.
  apply (@batch_without_gdown plain_libs
           [PStr "http://x.org/a.bin"; PStr "http://x.org/c.bin"] PNone None
           default_options w_bare); [reflexivity|].
  repeat constructor; by eexists.
Defined.

Lemma batch_of_present_files_witness :
  let run := @download_files plain_libs [PStr "http://x.org/a.txt"] PNone None
               default_options w_home in
  fst run = Ok tt /\ fs (snd run) = fs w_home /\
  Forall calm (new_events w_home (snd run)) /\
  length (calls (new_events w_home (snd run))) = 1.
Proof.
  apply (@batch_of_present_files plain_libs [PStr "http://x.org/a.txt"] PNone
           None default_options w_home); [reflexivity..|].
  repeat constructor. exists "/home/u/a.txt".
  repeat split; vm_compute; reflexivity.
Defined.

Lemma batch_without_filenames_witness :
  Forall2 (fun c u => exists d s,
             dir_or_cwd (PStr "/data") w_home = PStr d /\ u = PStr s /\
             c = (u, PStr (PosixPath.join d (PosixPath.basename s))))
    (calls (new_events w_home
              (snd (@download_files plain_libs
                      [PStr "http://x.org/a.bin"; PStr "http://x.org/c.bin"]
                      (PStr "/data") None default_options w_home))))
    [PStr "http://x.org/a.bin"; PStr "http://x.org/c.bin"].
Proof.
  apply (@batch_without_filenames plain_libs
           [PStr "http://x.org/a.bin"; PStr "http://x.org/c.bin"]
           (PStr "/data") default_options w_home).
  vm_compute. reflexivity.
Defined.

Lemma item_without_destination_witness :
  @download_files plain_libs [PStr "http://x.org/a.bin"; PInt 7] PNone None
    default_options w_home = (Raise TypeError, w_before_seven) /\
  length (calls (new_events w_home w_before_seven)) = 1.
Proof.
  apply (@item_without_destination plain_libs
           [PStr "http://x.org/a.bin"; PInt 7] PNone None default_options
           w_home 1 (PInt 7) PNone w_before_seven).
  - reflexivity.
  - vm_compute. reflexivity.
  - reflexivity.
Defined.

(** ** Directories, archives and batches *)

(** C8 as stated fails: the directory of the output ["a.txt/x"] is the
    regular file [a.txt]; something exists at its path, so nothing is
    made, and [gdown.download] is reached with a file where the
    directory should be. *)
Lemma output_directory_exists_first_counterexample :
  let run := @download_file plain_libs (PStr "http://x.org/x.bin")
               (PStr "a.txt/x") default_options w_home in
  PosixPath.abspath (cwd w_home) (PosixPath.dirname "a.txt/x")
    = "/home/u/a.txt" /\
  EvDownload file_parent_args home_fs ∈ new_events w_home (snd run) /\
  home_fs !! "/home/u/a.txt" = Some File /\
  Forall (fun e => is_makedirs e = false) (new_events w_home (snd run)).
Proof.
  split; [reflexivity|]. split; [vm_compute; repeat constructor|].
  split; [reflexivity|]. vm_compute. repeat constructor.
Qed.

(** C8 where the directory has to be made: [new] is missing in the
    home directory, and [gdown.download] runs once it is there. *)
Lemma output_directory_exists_first_witness :
  exists_in home_fs "/home/u/new" = false /\
  exists rest,
    new_events w_home
      (snd (@download_file plain_libs (PStr "http://x.org/x.bin")
              (PStr "new/x.bin") default_options w_home)) =
      EvEnter (PStr "http://x.org/x.bin") (PStr "new/x.bin") ::
      EvExists OutDirSite "/home/u/new" home_fs ::
      EvMakedirs "/home/u/new" :: rest /\
    EvDownload new_args home_with_new ∈ rest /\
    exists_in home_with_new "/home/u/new" = true /\
    home_with_new !! "/home/u/new" = Some Dir.
Proof.
  split; [vm_compute; reflexivity|].
  destruct (@output_directory_exists_first plain_libs
              (PStr "http://x.org/x.bin") (PStr "new/x.bin") default_options
              w_home (EvDownload new_args home_with_new))
    as (p & rest & Hp & Hev & Hin & Hseen).
  - vm_compute. repeat constructor.
  - reflexivity.
  - injection Hp as <-. exists rest. split; [exact Hev|]. split; [exact Hin|].
    destruct (Hseen home_with_new eq_refl) as [Hex Hdir].
    split; [exact Hex|]. apply Hdir. vm_compute. discriminate.
Defined.


(** C3 as stated fails: a regular file named [data] sits where the
    subfolder of [data.zip] should be; something exists at that path, so
    no subfolder is made, and [extractall] is sent to the path of the
    file. *)
Lemma archive_is_extracted_counterexample :
  let run := @download_file plain_libs (PStr "http://x.org/data.zip") PNone
               subfolder_options w_data_file in
  extract_dest subfolder_options "/home/u" "data.zip" = "/home/u/data" /\
  fs w_data_file !! "/home/u/data" = Some File /\
  EvExtract Zip "data.zip" "/home/u/data" (fs w_data_file)
    ∈ new_events w_data_file (snd run) /\
  Forall (fun e => is_makedirs e = false) (new_events w_data_file (snd run)) /\
  fs (snd run) !! "/home/u/data" = Some File.
Proof.
  split; [reflexivity|]. split; [reflexivity|].
  split; [vm_compute; repeat constructor|].
  split; [vm_compute; repeat constructor|]. vm_compute. reflexivity.
Qed.

(** C3 on a zip archive.  With [subfolder] the subfolder is made, and
    the run ends in what [extractall] made of the file system with the
    subfolder in it; without, [extractall] goes to the output
    directory. *)
Lemma archive_is_extracted_witness :
  (let run := @download_file unpacking_libs (PStr "http://x.org/data.zip")
                PNone subfolder_options w_home in
   exists f_at,
     EvExtract Zip "data.zip" "/home/u/data" f_at
       ∈ new_events w_home (snd run) /\
     makedirs_fs "/home/u/data" home_fs = Ok f_at /\
     EvMakedirs "/home/u/data" ∈ new_events w_home (snd run) /\
     f_at !! "/home/u/data" = Some Dir /\
     fs (snd run) = <["/home/u/data/README" := File]> f_at) /\
  (let run := @download_file unpacking_libs (PStr "http://x.org/data.zip")
                (PStr "/home/u/data.zip") default_options w_home in
   EvExtract Zip "/home/u/data.zip" "/home/u" home_fs
     ∈ new_events w_home (snd run) /\
   fs (snd run) = <["/home/u/README" := File]> home_fs).
Proof.
  split.
  - destruct (@archive_is_extracted unpacking_libs
                (PStr "http://x.org/data.zip") PNone subfolder_options w_home
                "data.zip" zip_args home_fs "data.zip" home_fs Zip)
      as (f_at & r & f2 & Hin & Hext & Hfs & _ & Hsub).
    + reflexivity.
    + vm_compute. repeat constructor.
    + reflexivity.
    + reflexivity.
    + reflexivity.
    + reflexivity.
    + intros _. vm_compute. reflexivity.
    + destruct (Hsub eq_refl) as (_ & Hmk & Hdir).
      destruct (Hmk : makedirs_fs "/home/u/data" home_fs = Ok f_at /\
                      EvMakedirs "/home/u/data" ∈ _) as [Hmade Hev].
      exists f_at. split; [exact Hin|]. split; [exact Hmade|].
      split; [exact Hev|]. split.
      * apply Hdir. vm_compute. discriminate.
      * rewrite Hfs.
        by injection (Hext : (None, <["/home/u/data/README" := File]> f_at)
                             = (r, f2)).
  - destruct (@archive_is_extracted unpacking_libs
                (PStr "http://x.org/data.zip") (PStr "/home/u/data.zip")
                default_options w_home "/home/u/data.zip" abs_zip_args home_fs
                "/home/u/data.zip" home_fs Zip)
      as (f_at & r & f2 & Hin & Hext & Hfs & Hflat & _).
    + reflexivity.
    + vm_compute. repeat constructor.
    + reflexivity.
    + reflexivity.
    + reflexivity.
    + reflexivity.
    + intros [=].
    + destruct (Hflat eq_refl) as (_ & -> & _).
      split; [exact Hin|]. rewrite Hfs.
      by injection (Hext : (None, <["/home/u/README" := File]> home_fs)
                           = (r, f2)).
Defined.


(** C10 on three urls and two filenames: two pairs, two calls, and the
    third url is never touched; and on two urls and three filenames:
    two pairs again, the third filename is never looked at. *)
Lemma download_files_truncates_witness :
  (let run := @download_files plain_libs long_urls PNone (Some short_names)
                default_options w_home in
   run = @run_items plain_libs (PStr "/home/u") default_options
           [(PStr "http://x.org/a.bin", PNone);
            (PStr "http://x.org/c.bin", PStr "k.bin")] w_home /\
   calls (new_events w_home (snd run)) !! 1
     = Some (PStr "http://x.org/c.bin", PStr "/home/u/k.bin") /\
   length (calls (new_events w_home (snd run))) = 2) /\
  (let run := @download_files plain_libs (take 2 long_urls) PNone
                (Some long_names) default_options w_home in
   run = @run_items plain_libs (PStr "/home/u") default_options
           [(PStr "http://x.org/a.bin", PNone);
            (PStr "http://x.org/c.bin", PStr "k.bin")] w_home /\
   length (calls (new_events w_home (snd run))) = 2).
Proof.
  split.
  - destruct (@download_files_truncates plain_libs long_urls PNone short_names
                default_options w_home)
      as (_ & _ & Hrun & _ & Hitem & _ & Hall).
    split; [exact Hrun|]. split.
    + apply (Hitem 1 (PStr "http://x.org/c.bin") (PStr "k.bin") w_after_a
               "/home/u/k.bin");
        [reflexivity| vm_compute; reflexivity | reflexivity].
    + apply Hall. vm_compute. reflexivity.
  - destruct (@download_files_truncates plain_libs (take 2 long_urls) PNone
                long_names default_options w_home)
      as (_ & _ & Hrun & _ & _ & _ & Hall).
    split; [exact Hrun|]. apply Hall. vm_compute. reflexivity.
Defined.

Lemma blocked_directory_stops_the_run_witness :
  let run := @download_file plain_libs (PStr "http://x.org/a.txt")
               (PStr "a.txt/sub/x") default_options w_home in
  fst run = Raise NotADirectoryError /\
  new_events w_home (snd run) =
    [EvEnter (PStr "http://x.org/a.txt") (PStr "a.txt/sub/x");
     EvExists OutDirSite "/home/u/a.txt/sub" (fs w_home);
     EvMakedirs "/home/u/a.txt/sub"].
Proof.
  apply (@blocked_directory_stops_the_run plain_libs
           (PStr "http://x.org/a.txt") (PStr "a.txt/sub/x") default_options
           w_home "a.txt/sub/x" NotADirectoryError);
    vm_compute; reflexivity.
Defined.

Lemma quiet_run_prints_nothing_after_transfer_witness :
  quiet quiet_options = true /\
  EvPrint (skip_msg "a.txt")
    ∈ new_events w_home
        (snd (@download_file plain_libs (PStr "http://x.org/a.txt") PNone
                quiet_options w_home)) /\
  EvPrint gdown_missing_msg
    ∈ new_events w_bare
        (snd (@download_file plain_libs (PStr "http://x.org/a.txt") PNone
                quiet_options w_bare)) /\
  exists pre post,
    new_events w_home
      (snd (@download_file plain_libs (PStr "http://x.org/data.zip") PNone
              quiet_options w_home)) = pre ++ post /\
    Forall calm pre /\
    Forall (fun e => is_print e = false) post /\
    (post = [] \/ exists a f ext, post = EvDownload a f :: ext).
Proof.
  split; [reflexivity|]. split; [|split].
  - apply (proj2 (proj2 (@quiet_run_prints_nothing_after_transfer plain_libs
                           (PStr "http://x.org/a.txt") PNone quiet_options
                           w_home eq_refl)) "http://x.org/a.txt" "a.txt");
      vm_compute; reflexivity.
  - apply (proj1 (proj2 (@quiet_run_prints_nothing_after_transfer plain_libs
                           (PStr "http://x.org/a.txt") PNone quiet_options
                           w_bare eq_refl))).
    reflexivity.
  - apply (proj1 (@quiet_run_prints_nothing_after_transfer plain_libs
                    (PStr "http://x.org/data.zip") PNone quiet_options
                    w_home eq_refl)).
Defined.
